(** * Namespace lifecycle manager: a shallow embedding and its properties

    The development follows the Go packages of the repository:

    - [internal/kube/namespaces.go]: [CreateNamespace], [DeleteNamespace],
      [ListNamespaces] and the [NamespaceInfo] view;
    - [internal/httpserver/handlers.go]: [HandleCreateNamespaceRequest].

    The Kubernetes clientset, the wall clock and [time.Sleep] are the
    environment of the program.  They are kept abstract behind the class
    [World]; every call made through the clientset is recorded in a log so
    that statements about which calls were issued can be made.

    Go's [time] package is outside the repository.  The part the manager
    uses (durations, instants, the RFC 3339 layout) is modelled in module
    [time]. *)

From Stdlib Require Import ZArith Lia Ascii Floats.SpecFloat.
From stdpp Require Import base option list strings gmap.

Local Open Scope Z_scope.

(** ** Machine integers *)

(** Go's [int] on the build target (GOARCH=amd64) and [int64]: a signed
    64-bit integer.  Arithmetic wraps around silently. *)
Definition maxInt64 : Z := 2 ^ 63 - 1.
Definition minInt64 : Z := - 2 ^ 63.

Definition wrap64 (z : Z) : Z := (z + 2 ^ 63) mod 2 ^ 64 - 2 ^ 63.

(** ** Go's [error] values that the program can observe *)

Inductive error : Type :=
  | StatusNotFound (msg : string)        (* apierrors: reason NotFound *)
  | StatusAlreadyExists (msg : string)   (* apierrors: reason AlreadyExists *)
  | StatusForbidden (msg : string)       (* apierrors: reason Forbidden *)
  | TransportError (msg : string)        (* connection refused, TLS, ... *)
  | DeadlineExceeded                     (* context.DeadlineExceeded *)
  | ParseError (value : string)          (* *time.ParseError *)
  | SyntaxError (msg : string).          (* encoding/json: malformed body *)

(** [err.Error()] *)
Definition Error (e : error) : string :=
  match e with
  | StatusNotFound msg | StatusAlreadyExists msg | StatusForbidden msg
  | TransportError msg | SyntaxError msg => msg
  | DeadlineExceeded => "context deadline exceeded"
  | ParseError value => "parsing time " +:+ value
  end.

(** ** Package [time] *)

Module time.

(** [time.Duration] is an [int64] count of nanoseconds. *)
Definition Duration : Type := Z.

Definition Nanosecond : Duration := 1.
Definition Microsecond : Duration := 1000 * Nanosecond.
Definition Millisecond : Duration := 1000 * Microsecond.
Definition Second : Duration := 1000 * Millisecond.
Definition Minute : Duration := 60 * Second.
Definition Hour : Duration := 60 * Minute.

(** [a * b] on [Duration]s: [int64] multiplication. *)
Definition Duration_mul (a b : Duration) : Duration := wrap64 (a * b).

(** [time.Time]: an instant, as nanoseconds since 0001-01-01T00:00:00Z.
    The zero value [time.Time{}] is that instant itself. *)
Definition Time : Type := Z.
Definition zero : Time := 0.

(** [t.Add(d)] *)
Definition Add (t : Time) (d : Duration) : Time := t + d.

(** [t.Sub(u)]: the difference, saturated to the range of [Duration]. *)
Definition Sub (t u : Time) : Duration :=
  if maxInt64 <? t - u then maxInt64
  else if t - u <? minInt64 then minInt64
  else t - u.

(** [int(d.Hours())].  [Hours] is

      hour := d / Hour; nsec := d % Hour
      return float64(hour) + float64(nsec)/(60*60*1e9)

    in binary64 arithmetic, and the conversion to [int] drops the
    fraction.  The two conversions to [float64] are exact ([hour] is below
    2^22 and [nsec] below 2^42) and so is the constant; the quotient and
    the sum are each rounded to the nearest binary64 number.  The quotient
    is below 1, so the sum is [hour] and a fraction, or, when the rounding
    carries, [hour + 1].

    [Hours_roundsUp hour nsec] tells when it carries.  The binary64
    numbers around [hour >= 1] are [2 ^ (Z.log2 hour - 52)] apart, so the
    sum is rounded to [hour + 1] when the quotient is at least
    [1 - 2 ^ (Z.log2 hour - 53)]; the quotient, itself rounded to a
    multiple of [2 ^ -53], is that large when [nsec / Hour] is above
    [1 - 2 ^ (Z.log2 hour - 53) - 2 ^ -54].  Cleared of fractions this is
    the comparison below.  It can hold from [hour = 4096] on: one
    nanosecond below 4097 hours gives 4097, and near the largest duration
    what is within 838 ns of a whole hour is rounded up to it.  With
    [hour = 0] the sum is the quotient itself. *)
Definition Hours_roundsUp (hour nsec : Z) : bool :=
  (0 <? hour)
  && ((Hour - nsec) * 2 ^ 54 <? Hour * (2 ^ (Z.log2 hour + 1) + 1)).

Definition Hours_int (d : Duration) : Z :=
  let hour := Z.quot d Hour in
  let nsec := Z.rem d Hour in
  hour + Z.sgn d * (if Hours_roundsUp (Z.abs hour) (Z.abs nsec) then 1 else 0).

(** The same computation with every operation carried out on binary64
    numbers as IEEE 754 defines them: [float64(x)], [Hours] and [int(f)].
    [Hours_agree] compares it with [Hours_int]. *)
Definition float64_of_int (x : Z) : spec_float :=
  binary_normalize 53 1024 x 0 false.

Definition Hours (d : Duration) : spec_float :=
  let hour := Z.quot d Hour in
  let nsec := Z.rem d Hour in
  SFadd 53 1024 (float64_of_int hour)
    (SFdiv 53 1024 (float64_of_int nsec)
       (float64_of_int (60 * 60 * 1000000000))).

Definition int_of_float64 (f : spec_float) : Z :=
  match f with
  | S754_finite s m e =>
      (if s then -1 else 1)
      * (if 0 <=? e then Z.pos m * 2 ^ e else Z.pos m / 2 ^ (- e))
  | _ => 0
  end.

Definition Hours_agree (d : Duration) : bool :=
  int_of_float64 (Hours d) =? Hours_int d.

(** Durations around the places where the rounding changes: for [hour]
    at both ends of every binade and next to them, [nsec] from a few
    nanoseconds below the least one that is rounded up to a few above it,
    the last nanosecond of the hour, its first and its middle. *)
Definition Hours_samples : list Duration :=
  a ← seqZ 0 22;
  hour ← [2 ^ a; 2 ^ a + 1; 2 ^ (a + 1) - 2; 2 ^ (a + 1) - 1];
  let back := (Hour * (2 ^ (a + 1) + 1) - 1) / 2 ^ 54 in
  nsec ← [0; 1; Hour / 2; Hour - 1; Hour - back - 3; Hour - back - 2;
          Hour - back - 1; Hour - back; Hour - back + 1; Hour - back + 2];
  if (0 <=? nsec) && (nsec <? Hour) && (hour * Hour + nsec <=? maxInt64)
  then [hour * Hour + nsec; - (hour * Hour + nsec)] else [].

(** *** The civil calendar *)

Definition secondsPerDay : Z := 86400.
Definition daysPer400Years : Z := 146097.
Definition daysPer100Years : Z := 36524.
Definition daysPer4Years : Z := 1461.

Definition isLeap (year : Z) : bool :=
  (year mod 4 =? 0) && (negb (year mod 100 =? 0) || (year mod 400 =? 0)).

(** [daysBefore[m]]: days in a non-leap year before month [m+1]. *)
Definition daysBefore (m : Z) : Z :=
  match m with
  | 0 => 0 | 1 => 31 | 2 => 59 | 3 => 90 | 4 => 120 | 5 => 151 | 6 => 181
  | 7 => 212 | 8 => 243 | 9 => 273 | 10 => 304 | 11 => 334 | _ => 365
  end.

Definition daysIn (month year : Z) : Z :=
  if (month =? 2) && isLeap year then 29
  else daysBefore month - daysBefore (month - 1).

(** Year and day within the year of a day count (days since
    0001-01-01), by 400-, 100-, 4- and 1-year cycles. *)
Definition yearDay (days : Z) : Z * Z :=
  let n400 := days / daysPer400Years in
  let d := days - daysPer400Years * n400 in
  let n100 := d / daysPer100Years in
  let n100 := n100 - n100 / 4 in
  let d := d - daysPer100Years * n100 in
  let n4 := d / daysPer4Years in
  let d := d - daysPer4Years * n4 in
  let n := d / 365 in
  let n := n - n / 4 in
  let d := d - 365 * n in
  (400 * n400 + 100 * n100 + 4 * n4 + n + 1, d).

(** Month and day of the month from the day within the year. *)
Definition monthDay (year yday : Z) : Z * Z :=
  if isLeap year && (yday =? 31 + 29 - 1) then (2, 29)
  else
    let day := if isLeap year && (31 + 29 - 1 <? yday) then yday - 1 else yday in
    let month := day / 31 in
    let end_ := daysBefore (month + 1) in
    if end_ <=? day then (month + 2, day - end_ + 1)
    else (month + 1, day - daysBefore month + 1).

(** Days from 0001-01-01 to the first day of [year]. *)
Definition daysSinceEpoch (year : Z) : Z :=
  let y := year - 1 in
  365 * y + y / 4 - y / 100 + y / 400.

(** [time.Date(year, month, day, hour, min, sec, nsec, time.UTC)] for
    fields that are in range. *)
Definition Date (year month day hour min sec nsec : Z) : Time :=
  let d := daysSinceEpoch year + daysBefore (month - 1)
           + (if isLeap year && (3 <=? month) then 1 else 0)
           + (day - 1) in
  (d * secondsPerDay + hour * 3600 + min * 60 + sec) * Second + nsec.

(** *** Decimal fields *)

Definition digit (n : Z) : ascii := ascii_of_N (48 + Z.to_N n).

Definition isDigit (c : ascii) : bool :=
  let n := Z.of_N (N_of_ascii c) in (48 <=? n) && (n <=? 57).

Definition digitVal (c : ascii) : Z := Z.of_N (N_of_ascii c) - 48.

(** The decimal digits of a non-negative number, most significant first. *)
Fixpoint utoa (fuel : nat) (n : Z) (acc : list ascii) : list ascii :=
  match fuel with
  | O => digit (n mod 10) :: acc
  | S fuel' =>
      if n <? 10 then digit n :: acc
      else utoa fuel' (n / 10) (digit (n mod 10) :: acc)
  end.

(** [appendInt(b, x, width)]: [x] in decimal, zero-padded to [width]
    digits, with a leading minus sign for negative [x]. *)
Definition appendInt (x : Z) (width : nat) : list ascii :=
  let u := Z.abs x in
  let ds := utoa (Z.to_nat (Z.log2 u)) u [] in
  (if x <? 0 then ["-"%char] else [])
    ++ replicate (width - length ds) "0"%char ++ ds.

(** [t.Format(time.RFC3339)] for an instant in the UTC location, which
    is the local one in the image the service ships in (it has no zone
    database).  The layout is ["2006-01-02T15:04:05Z07:00"]: it has no
    field for the fraction of the second. *)
Definition Format_RFC3339 (t : Time) : string :=
  let secs := t / Second in
  let days := secs / secondsPerDay in
  let rem := secs mod secondsPerDay in
  let '(year, yday) := yearDay days in
  let '(month, day) := monthDay year yday in
  String.string_of_list_ascii
    (appendInt year 4 ++ "-"%char :: appendInt month 2 ++ "-"%char
       :: appendInt day 2 ++ "T"%char :: appendInt (rem / 3600) 2
       ++ ":"%char :: appendInt (rem mod 3600 / 60) 2
       ++ ":"%char :: appendInt (rem mod 60) 2 ++ ["Z"%char]).

(** The closure [parseUint] of [parseRFC3339]: an unsigned decimal
    number within [min..max]; [None] stands for [ok = false]. *)
Fixpoint atoi (s : list ascii) (x : Z) : option Z :=
  match s with
  | [] => Some x
  | c :: s' => if isDigit c then atoi s' (x * 10 + digitVal c) else None
  end.

Definition parseUint (s : list ascii) (min max : Z) : option Z :=
  x ← atoi s 0;
  if (x <? min) || (max <? x) then None else Some x.

(** [parseNanoseconds]: the digits after the point, of which the first
    nine count. *)
Definition parseNanoseconds (ds : list ascii) : Z :=
  let ds9 := take 9 ds in
  default 0 (atoi ds9 0) * 10 ^ Z.of_nat (9 - length ds9).

(** The longest prefix of digits, and what follows it. *)
Fixpoint spanDigits (s : list ascii) : list ascii * list ascii :=
  match s with
  | c :: s' =>
      if isDigit c then let '(ds, rest) := spanDigits s' in (c :: ds, rest)
      else ([], s)
  | [] => ([], [])
  end.

(** The zone suffix: ["Z"] or [±hh:mm]; the result is the offset in
    seconds east of UTC. *)
Definition parseZone (s : list ascii) : option Z :=
  match s with
  | [z] => if Ascii.eqb z "Z" then Some 0 else None
  | [sg; h1; h2; c; m1; m2] =>
      hr ← parseUint [h1; h2] 0 23;
      mm ← parseUint [m1; m2] 0 59;
      if (Ascii.eqb sg "-" || Ascii.eqb sg "+") && Ascii.eqb c ":"
      then Some ((if Ascii.eqb sg "-" then -1 else 1) * ((hr * 60 + mm) * 60))
      else None
  | _ => None
  end.

(** [parseRFC3339]: the parser [time.Parse] tries first for the
    RFC 3339 layout.  It takes the fixed-width spelling only; what it
    rejects goes to the general layout parser [parse] below. *)
Definition parseRFC3339 (s : list ascii) : option Time :=
  match s with
  | y1 :: y2 :: y3 :: y4 :: c4 :: m1 :: m2 :: c7 :: d1 :: d2 :: c10
      :: h1 :: h2 :: c13 :: i1 :: i2 :: c16 :: s1 :: s2 :: rest =>
      year ← parseUint [y1; y2; y3; y4] 0 9999;
      month ← parseUint [m1; m2] 1 12;
      day ← parseUint [d1; d2] 1 (daysIn month year);
      hour ← parseUint [h1; h2] 0 23;
      min ← parseUint [i1; i2] 0 59;
      sec ← parseUint [s1; s2] 0 59;
      if Ascii.eqb c4 "-" && Ascii.eqb c7 "-" && Ascii.eqb c10 "T"
         && Ascii.eqb c13 ":" && Ascii.eqb c16 ":"
      then
        let '(nsec, rest) :=
          match rest with
          | dot :: f1 :: rest' =>
              if Ascii.eqb dot "." && isDigit f1
              then let '(ds, rest'') := spanDigits rest' in
                   (parseNanoseconds (f1 :: ds), rest'')
              else (0, rest)
          | _ => (0, rest)
          end in
        off ← parseZone rest;
        Some (Date year month day hour min sec nsec - off * Second)
      else None
  | _ => None
  end.

(** [getnum(s, fixed)]: a number of one or two digits at the head of
    [s], and the rest; with [fixed] it has to have two. *)
Definition getnum (s : list ascii) (fixed : bool) : option (Z * list ascii) :=
  match s with
  | c0 :: s1 =>
      if isDigit c0 then
        match s1 with
        | c1 :: s2 =>
            if isDigit c1 then Some (digitVal c0 * 10 + digitVal c1, s2)
            else if fixed then None else Some (digitVal c0, s1)
        | [] => if fixed then None else Some (digitVal c0, s1)
        end
      else None
  | [] => None
  end.

(** [skip(value, prefix)] for the one-character literals of the layout. *)
Definition skip (value : list ascii) (prefix : ascii) : option (list ascii) :=
  match value with
  | c :: value' => if Ascii.eqb c prefix then Some value' else None
  | [] => None
  end.

Definition commaOrPeriod (c : ascii) : bool :=
  Ascii.eqb c "." || Ascii.eqb c ",".

(** The case [stdISO8601ColonTZ] of [parse]: ["Z"], or a sign, two
    digits, a colon and two digits.  The hours may go up to 24 and the
    minutes up to 60.  The result is the offset in seconds east of UTC and
    what follows the zone. *)
Definition parseTZ (value : list ascii) : option (Z * list ascii) :=
  match value with
  | z :: rest =>
      if Ascii.eqb z "Z" then Some (0, rest)
      else
        match value with
        | sign :: h1 :: h2 :: c :: m1 :: m2 :: rest =>
            if Ascii.eqb c ":" then
              '(hr, _) ← getnum [h1; h2] true;
              '(mm, _) ← getnum [m1; m2] true;
              if (24 <? hr) || (60 <? mm) then None
              else
                let zoneOffset := (hr * 60 + mm) * 60 in
                if Ascii.eqb sign "+" then Some (zoneOffset, rest)
                else if Ascii.eqb sign "-" then Some (- zoneOffset, rest)
                else None
            else None
        | _ => None
        end
  | [] => None
  end.

(** [parse(layout, value, UTC, Local)] for the layout
    ["2006-01-02T15:04:05Z07:00"], chunk by chunk: a year of four digits,
    month and day of two, an hour of one or two digits, minute and second
    of two, a fraction after a point or a comma if the value has one, the
    zone, and nothing after it.  The day is checked against the month
    once the value has been read. *)
Definition parse (value : list ascii) : option Time :=
  match value with
  | y1 :: y2 :: y3 :: y4 :: value =>
      if isDigit y1 then
        year ← atoi [y1; y2; y3; y4] 0;
        value ← skip value "-";
        '(month, value) ← getnum value true;
        if (month <=? 0) || (12 <? month) then None else
        value ← skip value "-";
        '(day, value) ← getnum value true;
        value ← skip value "T";
        '(hour, value) ← getnum value false;
        if 24 <=? hour then None else
        value ← skip value ":";
        '(min, value) ← getnum value true;
        if 60 <=? min then None else
        value ← skip value ":";
        '(sec, value) ← getnum value true;
        if 60 <=? sec then None else
        let '(nsec, value) :=
          match value with
          | p :: f1 :: value' =>
              if commaOrPeriod p && isDigit f1
              then let '(ds, value'') := spanDigits value' in
                   (parseNanoseconds (f1 :: ds), value'')
              else (0, value)
          | _ => (0, value)
          end in
        '(zoneOffset, value) ← parseTZ value;
        match value with
        | [] =>
            if (day <? 1) || (daysIn month year <? day) then None
            else Some (Date year month day hour min sec nsec
                       - zoneOffset * Second)
        | _ :: _ => None
        end
      else None
  | _ => None
  end.

(** [time.Parse(time.RFC3339, value)]: the instant and a nil error, or
    the zero [Time] and a [*ParseError].  For this layout [Parse] tries
    [parseRFC3339] and falls back on [parse]. *)
Definition Parse_RFC3339 (value : string) : Time * option error :=
  let s := String.list_ascii_of_string value in
  match parseRFC3339 s with
  | Some t => (t, None)
  | None =>
      match parse s with
      | Some t => (t, None)
      | None => (zero, Some (ParseError value))
      end
  end.

(** *** Notions used to state the properties of the layout *)

Definition yearLen (year : Z) : Z := if isLeap year then 366 else 365.

(** The instants whose year is written with four digits, 0000 to 9999:
    those the RFC 3339 layout can express. *)
Definition representable (t : Time) : Prop :=
  Date 0 1 1 0 0 0 0 ≤ t < Date 10000 1 1 0 0 0 0.

(** [t] with the fraction of its second dropped. *)
Definition truncSecond (t : Time) : Time := t - t mod Second.

(** [P] holds of the [n] integers from [z] on. *)
Fixpoint all_from (n : nat) (z : Z) (P : Z → bool) : bool :=
  match n with
  | O => true
  | S n' => P z && all_from n' (z + 1) P
  end.

(** The month and day computed for day [yd] of a year are in range and
    give [yd] back; stated on the leap flag so that it can be run on
    every day of a common and of a leap year. *)
Definition monthDay_ok (leap : bool) (yd : Z) : bool :=
  let '(m, dd) :=
    if leap && (yd =? 31 + 29 - 1) then (2, 29)
    else
      let day := if leap && (31 + 29 - 1 <? yd) then yd - 1 else yd in
      let month := day / 31 in
      let end_ := daysBefore (month + 1) in
      if end_ <=? day then (month + 2, day - end_ + 1)
      else (month + 1, day - daysBefore month + 1) in
  (1 <=? m) && (m <=? 12) && (1 <=? dd)
  && (dd <=? (if (m =? 2) && leap then 29
              else daysBefore m - daysBefore (m - 1)))
  && (daysBefore (m - 1) + (if leap && (3 <=? m) then 1 else 0)
      + (dd - 1) =? yd).

(** [n] printed on [width] digits reads back as [n]. *)
Definition digits_ok (width : nat) (n : Z) : bool :=
  match atoi (appendInt n width) 0 with
  | Some m => (m =? n) && (length (appendInt n width) =? width)%nat
  | None => false
  end.

End time.

(** ** Package [context] *)

Module context.

(** A context is known by its deadline, if it has one. *)
Record Context : Type := mkContext { deadline : option time.Time }.

Definition Background : Context := {| deadline := None |}.

(** [context.WithTimeout(parent, timeout)] called when the clock reads
    [now]: the deadline is [now + timeout] unless the parent's is
    earlier. *)
Definition WithTimeout (parent : Context) (timeout : time.Duration)
    (now : time.Time) : Context :=
  let d := time.Add now timeout in
  match deadline parent with
  | Some p => if p <? d then parent else {| deadline := Some d |}
  | None => {| deadline := Some d |}
  end.

(** Whether [<-ctx.Done()] is ready when the clock reads [now]. *)
Definition Done (ctx : Context) (now : time.Time) : bool :=
  match deadline ctx with
  | Some d => d <=? now
  | None => false
  end.

(** [ctx.Err()] *)
Definition Err (ctx : Context) (now : time.Time) : option error :=
  if Done ctx now then Some DeadlineExceeded else None.

End context.

(** ** The Kubernetes object the manager handles *)

Module corev1.

(** [corev1.Namespace], reduced to the fields of [ObjectMeta] that the
    manager writes or reads. *)
Record Namespace : Type := mkNamespace {
  Name : string;
  Annotations : gmap string string;
  CreationTimestamp : time.Time;
}.

End corev1.

(** [m[k]] on a Go [map[string]string]: the zero value [""] for a key
    that is absent (also when the map is nil). *)
Definition index (m : gmap string string) (k : string) : string :=
  default ""%string (m !! k).

(** ** The environment: clientset, clock and sleep *)

(** The calls the manager can make on [clientset.CoreV1().Namespaces()]. *)
Inductive Call : Type :=
  | CallCreate (ctx : context.Context) (namespace : corev1.Namespace)
  | CallDelete (ctx : context.Context) (name : string)
  | CallGet (ctx : context.Context) (name : string)
  | CallList (ctx : context.Context).

(** What the program runs against.  A value of [W] is the state of
    everything outside the manager: the API server, the network and the
    clock.  A clientset call returns Go's pair of a result and an error
    and leaves the world in a new state; how long it took shows in [Now].
    Local computation takes no time. *)
Class World (W : Type) : Type := {
  Now : W → time.Time;
  Sleep : time.Duration → W → W;
  Create : context.Context → corev1.Namespace → W
           → (option corev1.Namespace * option error) * W;
  Delete : context.Context → string → W → option error * W;
  Get : context.Context → string → W
        → (option corev1.Namespace * option error) * W;
  List : context.Context → W → (list corev1.Namespace * option error) * W;
}.

(** The clock does not run backwards during a [Get], and [time.Sleep(d)]
    pauses for at least [d]. *)
Class Monotone (W : Type) `{World W} : Prop := {
  Get_clock : ∀ ctx name w, Now w ≤ Now (Get ctx name w).2;
  Sleep_clock : ∀ d w, Now w + d ≤ Now (Sleep d w);
}.

(** The state threaded through the program: the world and the log of the
    clientset calls issued so far, oldest first. *)
Record State (W : Type) : Type := mkState { world : W; calls : list Call }.
Arguments mkState {W} _ _.
Arguments world {W} _.
Arguments calls {W} _.

Definition M (W A : Type) : Type := State W → A * State W.

Definition ret {W A} (a : A) : M W A := λ s, (a, s).
Definition bind {W A B} (c : M W A) (k : A → M W B) : M W B :=
  λ s, let '(a, s') := c s in k a s'.

Declare Scope go_scope.
Delimit Scope go_scope with go.
Notation "'let*' x := c 'in' k" := (bind c (λ x, k))
  (at level 10, x name, c at level 100, k at level 200, only parsing)
  : go_scope.
Notation "'let*' ' pat := c 'in' k" :=
  (bind c (λ x, match x with pat => k end))
  (at level 10, pat pattern, c at level 100, k at level 200, only parsing)
  : go_scope.

(** The result of running a loop with a bound on its iterations. *)
Inductive outcome (A : Type) : Type :=
  | Returned (a : A)
  | OutOfFuel.
Arguments Returned {A} _.
Arguments OutOfFuel {A}.

Section Effects.
Context {W : Type} `{World W}.

(** [time.Now()] *)
Definition time_Now : M W time.Time := λ s, (Now (world s), s).

(** [time.Until(t)], that is [t.Sub(time.Now())] *)
Definition time_Until (t : time.Time) : M W time.Duration :=
  (let* now := time_Now in ret (time.Sub t now))%go.

(** [time.Sleep(d)] *)
Definition time_Sleep (d : time.Duration) : M W unit :=
  λ s, (tt, mkState (Sleep d (world s)) (calls s)).

(** A clientset call: performed on the world and appended to the log. *)
Definition perform {A} (call : Call) (f : W → A * W) : M W A :=
  λ s, let '(a, w') := f (world s) in (a, mkState w' (calls s ++ [call])).

Definition Namespaces_Create ctx namespace :=
  perform (CallCreate ctx namespace) (Create ctx namespace).
Definition Namespaces_Delete ctx name :=
  perform (CallDelete ctx name) (Delete ctx name).
Definition Namespaces_Get ctx name :=
  perform (CallGet ctx name) (Get ctx name).
Definition Namespaces_List ctx :=
  perform (CallList ctx) (List ctx).

(** [context.WithTimeout(parent, timeout)] *)
Definition context_WithTimeout parent timeout : M W context.Context :=
  (let* now := time_Now in ret (context.WithTimeout parent timeout now))%go.

(** The [select] on [<-ctx.Done()] with a [default] branch. *)
Definition context_Done ctx : M W bool :=
  (let* now := time_Now in ret (context.Done ctx now))%go.

Definition context_Err ctx : M W (option error) :=
  (let* now := time_Now in ret (context.Err ctx now))%go.

(** [for _, x := range xs { acc = body(acc, x) }] *)
Fixpoint for_range {A B} (xs : list A) (body : B → A → M W B) (acc : B)
    : M W B :=
  match xs with
  | [] => ret acc
  | x :: xs' => (let* acc' := body acc x in for_range xs' body acc')%go
  end.

End Effects.

(** ** Package [kube] (internal/kube/namespaces.go) *)

Module kube.

(** [NamespaceInfo] represents namespace information with TTL details. *)
Record NamespaceInfo : Type := mkNamespaceInfo {
  Name : string;
  Owner : string;
  Team : string;
  CreatedAt : time.Time;
  ExpiresAt : time.Time;
  TTL : Z;                      (* TTL in hours *)
}.

Section Client.
Context {W : Type} `{World W}.
Local Open Scope go_scope.

(** The object [CreateNamespace] hands to the clientset, built when
    the clock reads [now]. *)
Definition newNamespace (now : time.Time) (name : string) (ttlHours : Z)
    (owner team : string) : corev1.Namespace :=
  {| corev1.Name := name;
     corev1.Annotations :=
       {[ "owner" := owner;
          "team" := team;
          "expires_at" :=
            time.Format_RFC3339
              (time.Add now (time.Duration_mul ttlHours time.Hour)) ]};
     corev1.CreationTimestamp := time.zero |}.

(** [CreateNamespace] creates a namespace with TTL, owner, and team
    annotations. *)
Definition CreateNamespace (name : string) (ttlHours : Z)
    (owner team : string) : M W (option error) :=
  let* now := time_Now in
  let namespace := newNamespace now name ttlHours owner team in
  let* '(_, err) := Namespaces_Create context.Background namespace in
  match err with
  | Some e => ret (Some e)
  | None => ret None
  end.

(** The poll loop of [DeleteNamespace]: [for { ... }] with its three
    exits, a [Get] that fails, the timer, and none. *)
Fixpoint poll (fuel : nat) (ctx : context.Context) (name : string)
    : M W (outcome (option error)) :=
  match fuel with
  | O => ret OutOfFuel
  | S fuel' =>
      let* '(_, err) := Namespaces_Get ctx name in
      match err with
      | Some _ => ret (Returned None)
      | None =>
          let* done := context_Done ctx in
          if done : bool then
            let* e := context_Err ctx in ret (Returned e)
          else
            let* _ := time_Sleep (500 * time.Millisecond) in
            poll fuel' ctx name
      end
  end.

(** [DeleteNamespace]: the delete call, then the poll loop under a
    context that times out after 30 seconds.  ([defer cancel()] releases
    the timer and has no part in the result.)  [fuel] bounds the turns of
    the loop. *)
Definition DeleteNamespace (fuel : nat) (name : string)
    : M W (outcome (option error)) :=
  let* err := Namespaces_Delete context.Background name in
  match err with
  | Some e => ret (Returned (Some e))
  | None =>
      let* ctx := context_WithTimeout context.Background (30 * time.Second) in
      poll fuel ctx name
  end.

(** The worlds in which the loop started in [w1] issues a [Get]: [w1],
    and the world that follows a turn in which the [Get] did not fail
    and the timer had not gone off. *)
Inductive polls (ctx : context.Context) (name : string) (w1 : W)
    : W → Prop :=
  | polls_first : polls ctx name w1 w1
  | polls_next w :
      polls ctx name w1 w →
      (Get ctx name w).1.2 = None →
      context.Done ctx (Now (Get ctx name w).2) = false →
      polls ctx name w1 (Sleep (500 * time.Millisecond) (Get ctx name w).2).

(** The body of the [range] loop of [ListNamespaces]; returning
    [result] unchanged is the [continue]. *)
Definition listItem (owner : string) (result : list NamespaceInfo)
    (ns : corev1.Namespace) : M W (list NamespaceInfo) :=
  let annotations := corev1.Annotations ns in
  let nsOwner := index annotations "owner" in
  let team := index annotations "team" in
  let expiresAtStr := index annotations "expires_at" in
  if negb (String.eqb owner "") && negb (String.eqb nsOwner owner)
  then ret result
  else
    let* '(expiresAt, ttl) :=
      (if negb (String.eqb expiresAtStr "") then
         let '(expiresAt, err) := time.Parse_RFC3339 expiresAtStr in
         match err with
         | None =>
             let* remaining := time_Until expiresAt in
             ret (expiresAt,
                  if 0 <? remaining then time.Hours_int remaining else 0)
         | Some _ => ret (expiresAt, 0)
         end
       else ret (time.zero, 0)) in
    let info := {| Name := corev1.Name ns;
                   Owner := nsOwner;
                   Team := team;
                   CreatedAt := corev1.CreationTimestamp ns;
                   ExpiresAt := expiresAt;
                   TTL := ttl |} in
    ret (result ++ [info]).

(** The loop body read as a function of the clock: whether a record
    passes the owner filter, and the view appended for it when the
    clock reads [now]. *)
Definition selected (owner : string) (ns : corev1.Namespace) : bool :=
  String.eqb owner ""
  || String.eqb (index (corev1.Annotations ns) "owner") owner.

Definition expiry (now : time.Time) (expiresAtStr : string)
    : time.Time * Z :=
  if String.eqb expiresAtStr "" then (time.zero, 0)
  else
    match time.Parse_RFC3339 expiresAtStr with
    | (expiresAt, None) =>
        (expiresAt,
         if 0 <? time.Sub expiresAt now
         then time.Hours_int (time.Sub expiresAt now) else 0)
    | (expiresAt, Some _) => (expiresAt, 0)
    end.

Definition view (now : time.Time) (ns : corev1.Namespace)
    : NamespaceInfo :=
  let annotations := corev1.Annotations ns in
  {| Name := corev1.Name ns;
     Owner := index annotations "owner";
     Team := index annotations "team";
     CreatedAt := corev1.CreationTimestamp ns;
     ExpiresAt := (expiry now (index annotations "expires_at")).1;
     TTL := (expiry now (index annotations "expires_at")).2 |}.

Definition views (owner : string) (now : time.Time)
    (items : list corev1.Namespace) : list NamespaceInfo :=
  map (view now) (List.filter (selected owner) items).

(** [ListNamespaces] lists all namespaces, optionally filtered by
    owner. *)
Definition ListNamespaces (owner : string)
    : M W (list NamespaceInfo * option error) :=
  let* '(namespaces, err) := Namespaces_List context.Background in
  match err with
  | Some e => ret ([], Some e)
  | None =>
      let* result := for_range namespaces (listItem owner) [] in
      ret (result, None)
  end.

End Client.

End kube.

(** ** Package [httpserver] (internal/httpserver/handlers.go) *)

Module httpserver.

(** [CreateNamespaceRequest] represents the JSON request body for
    creating a namespace. *)
Record CreateNamespaceRequest : Type := mkCreateNamespaceRequest {
  Name : string;     (* Namespace name *)
  TTL : Z;           (* Time to live in hours *)
  Owner : string;    (* Owner name *)
  Team : string;     (* Team name *)
}.

(** An incoming request, known by its method and by what
    [json.NewDecoder(r.Body).Decode(&req)] makes of its body: the
    decoded struct and the decoder's error. *)
Record Request : Type := mkRequest {
  Method : string;
  Decode : CreateNamespaceRequest * option error;
}.

Definition MethodPost : string := "POST".

Definition StatusCreated : Z := 201.
Definition StatusBadRequest : Z := 400.
Definition StatusMethodNotAllowed : Z := 405.
Definition StatusInternalServerError : Z := 500.

(** What the handler writes: raw bytes, or a JSON-encoded object. *)
Inductive Payload : Type :=
  | Bytes (b : string)
  | JSON (fields : gmap string string).

(** What the handler leaves in the [http.ResponseWriter]. *)
Record Response : Type := mkResponse {
  StatusCode : Z;
  Header : gmap string string;
  Body : Payload;
}.

Section Server.
Context {W : Type} `{World W}.
Local Open Scope go_scope.

Definition HandleCreateNamespaceRequest (r : Request) : M W Response :=
  (* Only allow POST method *)
  if negb (String.eqb (Method r) MethodPost) then
    ret (mkResponse StatusMethodNotAllowed ∅
           (Bytes "Method not allowed. Use POST"))
  else
    (* Parse JSON request body *)
    let '(req, err) := Decode r in
    match err with
    | Some e =>
        ret (mkResponse StatusBadRequest ∅
               (Bytes ("Invalid JSON: " +:+ Error e)))
    | None =>
        (* Validate required fields *)
        if String.eqb (Name req) "" then
          ret (mkResponse StatusBadRequest ∅
                 (Bytes "Missing required field: name"))
        else if String.eqb (Owner req) "" then
          ret (mkResponse StatusBadRequest ∅
                 (Bytes "Missing required field: owner"))
        else if String.eqb (Team req) "" then
          ret (mkResponse StatusBadRequest ∅
                 (Bytes "Missing required field: team"))
        else if TTL req <=? 0 then
          ret (mkResponse StatusBadRequest ∅
                 (Bytes "TTL must be greater than 0"))
        else
          (* Create the namespace *)
          let* err :=
            kube.CreateNamespace (Name req) (TTL req) (Owner req) (Team req) in
          match err with
          | Some e =>
              ret (mkResponse StatusInternalServerError ∅ (Bytes (Error e)))
          | None =>
              (* Return success response *)
              ret (mkResponse StatusCreated
                     {[ "Content-Type" := "application/json" ]}
                     (JSON {[ "message" := "Namespace created successfully";
                              "name" := Name req ]}))
          end
    end.

End Server.

End httpserver.

(** ** A scripted world

    A concrete environment to run the program in.  Its state is the
    clock; the script fixes how long a clientset call takes and what the
    API server replies, as a function of the request and of the time at
    which the reply arrives. *)

Record Script : Type := mkScript {
  latency : N;
  on_create : corev1.Namespace → option error;
  on_delete : string → option error;
  on_get : context.Context → string → time.Time
           → option corev1.Namespace * option error;
  on_list : time.Time → list corev1.Namespace * option error;
}.

Definition Sim (sc : Script) : World time.Time := {|
  Now := λ w, w;
  Sleep := λ d w, w + d;
  Create := λ _ ns w,
    ((match on_create sc ns with
      | None => Some ns
      | Some _ => None
      end, on_create sc ns), w + Z.of_N (latency sc));
  Delete := λ _ name w, (on_delete sc name, w + Z.of_N (latency sc));
  Get := λ ctx name w,
    (on_get sc ctx name (w + Z.of_N (latency sc)), w + Z.of_N (latency sc));
  List := λ _ w,
    (on_list sc (w + Z.of_N (latency sc)), w + Z.of_N (latency sc));
|}.

(** A [Get] that finds the namespace, whatever the context. *)
Definition get_found (ns : corev1.Namespace)
    : context.Context → string → time.Time
      → option corev1.Namespace * option error :=
  λ _ _ _, (Some ns, None).

(** A [Get] that reports the namespace gone. *)
Definition get_gone
    : context.Context → string → time.Time
      → option corev1.Namespace * option error :=
  λ _ name _, (None, Some (StatusNotFound name)).

(** A [Get] that is refused. *)
Definition get_forbidden
    : context.Context → string → time.Time
      → option corev1.Namespace * option error :=
  λ _ name _, (None, Some (StatusForbidden name)).

(** A [Get] as a client that honours its context makes it: the namespace
    is found as long as the reply arrives before the deadline, and the
    call fails with the context's error from the deadline on. *)
Definition get_until_deadline (ns : corev1.Namespace)
    : context.Context → string → time.Time
      → option corev1.Namespace * option error :=
  λ ctx _ now,
    if context.Done ctx now then (None, Some DeadlineExceeded)
    else (Some ns, None).

(** A script with a latency of one millisecond and fixed replies. *)
Definition script (cre del : option error)
    (get : context.Context → string → time.Time
           → option corev1.Namespace * option error)
    (list : list corev1.Namespace * option error) : Script :=
  mkScript 1000000 (λ _, cre) (λ _, del) get (λ _, list).

(** Running a program from a world in which no call has been logged. *)
Definition run {A} (sc : Script) (c : ∀ W, World W → M W A) (w : time.Time)
    : A * State time.Time :=
  c time.Time (Sim sc) (mkState w []).

(** The namespace of the running example, as the API server stores it. *)
Definition demo (created : time.Time) (ttlHours : Z) : corev1.Namespace :=
  {| corev1.Name := "demo";
     corev1.Annotations :=
       corev1.Annotations
         (kube.newNamespace created "demo" ttlHours "alice" "infra");
     corev1.CreationTimestamp := time.truncSecond created |}.

(** A namespace that carries no annotation at all. *)
Definition bare : corev1.Namespace :=
  {| corev1.Name := "kube-system";
     corev1.Annotations := ∅;
     corev1.CreationTimestamp := time.Date 2024 1 1 0 0 0 0 |}.

(** A namespace whose [expires_at] is not a timestamp. *)
Definition garbled : corev1.Namespace :=
  {| corev1.Name := "scratch";
     corev1.Annotations := {[ "owner" := "bob"; "expires_at" := "tomorrow" ]};
     corev1.CreationTimestamp := time.Date 2024 1 1 0 0 0 0 |}.

(** 2024-01-15T10:00:00.5Z *)
Definition t0 : time.Time := time.Date 2024 1 15 10 0 0 500000000.

(** ** The other handlers of [internal/httpserver/handlers.go] *)

Module handlers.

Record DeleteNamespaceRequest : Type := mkDeleteNamespaceRequest {
  Name : string;
}.

(** [url.Values.Get(key)]: the first value of the key, or [""]. *)
Definition Values_Get (v : gmap string (list string)) (key : string)
    : string :=
  match v !! key with
  | Some (x :: _) => x
  | _ => ""%string
  end.

(** An incoming request: its method, what [r.URL.Query()] makes of its
    URL, and what [json.NewDecoder(r.Body).Decode(&req)] makes of its
    body for a [DeleteNamespaceRequest]. *)
Record Request : Type := mkRequest {
  Method : string;
  Query : gmap string (list string);
  Decode : DeleteNamespaceRequest * option error;
}.

Definition MethodGet : string := "GET".
Definition MethodDelete : string := "DELETE".

Definition StatusOK : Z := 200.

(** What a handler writes: raw bytes, a JSON object, or the encoding of
    a slice of views. *)
Inductive Payload : Type :=
  | Bytes (b : string)
  | JSONObject (fields : gmap string string)
  | JSONNull
  | JSONArray (namespaces : list kube.NamespaceInfo).

Record Response : Type := mkResponse {
  StatusCode : Z;
  Header : gmap string string;
  Body : Payload;
}.

(** [json.NewEncoder(w).Encode(namespaces)] for the slice that
    [ListNamespaces] returns: that slice is nil as long as nothing was
    appended to it, and [encoding/json] writes a nil slice as [null]. *)
Definition Encode (namespaces : list kube.NamespaceInfo) : Payload :=
  match namespaces with
  | [] => JSONNull
  | _ :: _ => JSONArray namespaces
  end.

Section Server.
Context {W : Type} `{World W}.
Local Open Scope go_scope.

(** [fuel] bounds the turns of the poll loop of [DeleteNamespace]. *)
Definition HandleDeleteNamespaceRequest (fuel : nat) (r : Request)
    : M W (outcome Response) :=
  (* Only allow DELETE method *)
  if negb (String.eqb (Method r) MethodDelete) then
    ret (Returned (mkResponse httpserver.StatusMethodNotAllowed ∅
                     (Bytes "Method not allowed. Use DELETE")))
  else
    (* Parse JSON request body *)
    let '(req, err) := Decode r in
    match err with
    | Some e =>
        ret (Returned (mkResponse httpserver.StatusBadRequest ∅
                         (Bytes ("Invalid JSON: " +:+ Error e))))
    | None =>
        (* Delete the namespace *)
        let* res := kube.DeleteNamespace fuel (Name req) in
        match res with
        | OutOfFuel => ret OutOfFuel
        | Returned (Some e) =>
            ret (Returned (mkResponse httpserver.StatusInternalServerError ∅
                             (Bytes (Error e))))
        | Returned None =>
            (* Return success response *)
            ret (Returned
                   (mkResponse StatusOK
                      {[ "Content-Type" := "application/json" ]}
                      (JSONObject
                         {[ "message" := "Namespace deleted successfully";
                            "name" := Name req ]})))
        end
    end.

Definition HandleListNamespacesRequest (r : Request) : M W Response :=
  (* Only allow GET method *)
  if negb (String.eqb (Method r) MethodGet) then
    ret (mkResponse httpserver.StatusMethodNotAllowed ∅
           (Bytes "Method not allowed. Use GET"))
  else
    (* Get owner from query parameter (optional - empty string means
       list all) *)
    let owner := Values_Get (Query r) "owner" in
    (* List the namespaces *)
    let* '(namespaces, err) := kube.ListNamespaces owner in
    match err with
    | Some e =>
        ret (mkResponse httpserver.StatusInternalServerError ∅
               (Bytes (Error e)))
    | None =>
        (* Return success response *)
        ret (mkResponse StatusOK
               {[ "Content-Type" := "application/json" ]}
               (Encode namespaces))
    end.

End Server.

End handlers.

(** A [Get] that finds the namespace in replies that arrive before
    [gone] and reports it gone from then on. *)
Definition get_found_until (gone : time.Time) (ns : corev1.Namespace)
    : context.Context → string → time.Time
      → option corev1.Namespace * option error :=
  λ _ name now,
    if now <? gone then (Some ns, None)
    else (None, Some (StatusNotFound name)).

(** * Properties *)

(** ** The RFC 3339 layout: parsing inverts formatting *)

Lemma all_from_spec n : ∀ z P, time.all_from n z P = true →
  ∀ x, z ≤ x < z + Z.of_nat n → P x = true.
Proof.
  induction n as [|n IH]; intros z P Hall x Hx; [lia|].
  simpl in Hall. apply andb_prop in Hall as [Hz Hrest].
  destruct (decide (x = z)) as [->|Hne]; [done|].
  apply (IH (z + 1) P Hrest). lia.
Qed.

Lemma isLeap_true y :
  time.isLeap y = true ↔ y mod 4 = 0 ∧ (y mod 100 ≠ 0 ∨ y mod 400 = 0).
Proof.
  unfold time.isLeap. rewrite andb_true_iff, orb_true_iff, negb_true_iff.
  rewrite !Z.eqb_eq, Z.eqb_neq. tauto.
Qed.

Lemma isLeap_false y :
  time.isLeap y = false ↔ y mod 4 ≠ 0 ∨ (y mod 100 = 0 ∧ y mod 400 ≠ 0).
Proof.
  unfold time.isLeap. rewrite andb_false_iff, orb_false_iff, negb_false_iff.
  rewrite !Z.eqb_eq, !Z.eqb_neq. tauto.
Qed.

Lemma daysSinceEpoch_succ y :
  time.daysSinceEpoch (y + 1) = time.daysSinceEpoch y + time.yearLen y.
Proof.
  unfold time.yearLen, time.daysSinceEpoch.
  replace (y + 1 - 1) with (y - 1 + 1) by lia.
  destruct (time.isLeap y) eqn:Hleap.
  - apply isLeap_true in Hleap. Z.div_mod_to_equations. lia.
  - apply isLeap_false in Hleap. Z.div_mod_to_equations. lia.
Qed.

Lemma daysSinceEpoch_mono y1 y2 :
  y1 ≤ y2 → time.daysSinceEpoch y1 ≤ time.daysSinceEpoch y2.
Proof.
  intros Hle. unfold time.daysSinceEpoch. Z.div_mod_to_equations. lia.
Qed.

(** [yearDay] finds the year a day falls in and its rank in that year. *)
Lemma yearDay_spec days :
  ∃ y yd, time.yearDay days = (y, yd)
          ∧ time.daysSinceEpoch y + yd = days ∧ 0 ≤ yd < time.yearLen y.
Proof.
  unfold time.yearDay, time.daysPer400Years, time.daysPer100Years,
    time.daysPer4Years.
  eexists _, _. split; [reflexivity|].
  set (n400 := days / 146097).
  set (d := days - 146097 * n400).
  assert (Hd : 0 ≤ d < 146097) by (subst d n400; Z.div_mod_to_equations; lia).
  assert (Hdays : days = 146097 * n400 + d) by (subst d; lia).
  clearbody d n400.
  set (r100 := d / 36524).
  set (n100 := r100 - r100 / 4).
  set (d1 := d - 36524 * n100).
  set (n4 := d1 / 1461).
  set (d2 := d1 - 1461 * n4).
  set (r := d2 / 365).
  set (n := r - r / 4).
  assert (H100 : 0 ≤ n100 ≤ 3 ∧ 0 ≤ d1 ≤ 36524 ∧ (d1 = 36524 → n100 = 3)).
  { subst n100 d1 r100. Z.div_mod_to_equations. lia. }
  assert (H4 : 0 ≤ n4 ≤ 24 ∧ 0 ≤ d2 ≤ 1460
               ∧ (n4 = 24 → d2 = 1460 → d1 = 36524)).
  { subst n4 d2. clearbody d1. Z.div_mod_to_equations. lia. }
  assert (H1 : 0 ≤ n ≤ 3 ∧ 0 ≤ d2 - 365 * n ≤ 365
               ∧ (d2 - 365 * n = 365 → n = 3 ∧ d2 = 1460)).
  { subst n r. clearbody d2. Z.div_mod_to_equations. lia. }
  assert (Hd' : d = 36524 * n100 + 1461 * n4 + d2) by (subst d2 d1; lia).
  clearbody n n4 n100 d2 d1. clear r r100.
  set (y := 400 * n400 + 100 * n100 + 4 * n4 + n + 1).
  assert (Hy : y - 1 = 400 * n400 + 100 * n100 + 4 * n4 + n) by (subst y; lia).
  assert (Hdse : time.daysSinceEpoch y
                 = 146097 * n400 + 36524 * n100 + 1461 * n4 + 365 * n).
  { unfold time.daysSinceEpoch. rewrite Hy. Z.div_mod_to_equations. lia. }
  split; [lia|]. split; [lia|].
  unfold time.yearLen. destruct (time.isLeap y) eqn:Hleap; [lia|].
  assert (d2 - 365 * n ≠ 365) as Hne; [|lia].
  intros Heq. destruct H1 as (_ & _ & H1). destruct (H1 Heq) as [-> ->].
  apply isLeap_false in Hleap.
  assert (Hy4 : y = 400 * n400 + 100 * n100 + 4 * (n4 + 1)) by lia.
  destruct (decide (n4 = 24)) as [->|Hn4].
  - assert (n100 = 3) by lia. subst n100.
    revert Hleap. rewrite Hy4. Z.div_mod_to_equations. lia.
  - revert Hleap. rewrite Hy4. Z.div_mod_to_equations. lia.
Qed.

Lemma monthDay_common : time.all_from 365 0 (time.monthDay_ok false) = true.
Proof. vm_compute. reflexivity. Qed.

Lemma monthDay_leap : time.all_from 366 0 (time.monthDay_ok true) = true.
Proof. vm_compute. reflexivity. Qed.

Lemma monthDay_spec y yd :
  0 ≤ yd < time.yearLen y →
  ∃ m dd, time.monthDay y yd = (m, dd) ∧ 1 ≤ m ≤ 12
          ∧ 1 ≤ dd ≤ time.daysIn m y
          ∧ time.daysBefore (m - 1)
            + (if time.isLeap y && (3 <=? m) then 1 else 0) + (dd - 1) = yd.
Proof.
  unfold time.yearLen, time.monthDay, time.daysIn. intros Hyd.
  assert (Hok : time.monthDay_ok (time.isLeap y) yd = true).
  { destruct (time.isLeap y).
    - apply (all_from_spec _ _ _ monthDay_leap). lia.
    - apply (all_from_spec _ _ _ monthDay_common). lia. }
  unfold time.monthDay_ok in Hok.
  destruct (if time.isLeap y && (yd =? 31 + 29 - 1) then _ else _) as [m dd].
  exists m, dd. split; [reflexivity|].
  rewrite !andb_true_iff, !Z.leb_le, Z.eqb_eq in Hok. lia.
Qed.

Lemma daysIn_le m y : 1 ≤ m ≤ 12 → time.daysIn m y ≤ 31.
Proof.
  intros Hm. unfold time.daysIn. destruct (_ && _); [lia|].
  assert (m = 1 ∨ m = 2 ∨ m = 3 ∨ m = 4 ∨ m = 5 ∨ m = 6 ∨ m = 7 ∨ m = 8
          ∨ m = 9 ∨ m = 10 ∨ m = 11 ∨ m = 12) as Hc by lia.
  repeat (destruct Hc as [->|Hc]; [simpl; lia|]). subst m. simpl. lia.
Qed.

Lemma digits4 : time.all_from (Z.to_nat 10000) 0 (time.digits_ok 4) = true.
Proof. vm_compute. reflexivity. Qed.

Lemma digits2 : time.all_from 100 0 (time.digits_ok 2) = true.
Proof. vm_compute. reflexivity. Qed.

Lemma parseUint_atoi s n lo hi :
  time.atoi s 0 = Some n → lo ≤ n ≤ hi → time.parseUint s lo hi = Some n.
Proof.
  intros Hs Hr. unfold time.parseUint. rewrite Hs. simpl.
  destruct (_ || _) eqn:Hb; [|done].
  apply orb_prop in Hb as [?%Z.ltb_lt|?%Z.ltb_lt]; lia.
Qed.

Lemma appendInt2 n lo hi :
  0 ≤ n < 100 → lo ≤ n ≤ hi →
  ∃ a b, time.appendInt n 2 = [a; b] ∧ time.parseUint [a; b] lo hi = Some n.
Proof.
  intros Hn Hr.
  assert (Hok : time.digits_ok 2 n = true)
    by (apply (all_from_spec _ _ _ digits2); lia).
  unfold time.digits_ok in Hok.
  destruct (time.atoi (time.appendInt n 2) 0) as [k|] eqn:Hk; [|done].
  apply andb_prop in Hok as [->%Z.eqb_eq Hlen%Nat.eqb_eq].
  destruct (time.appendInt n 2) as [|a [|b [|? ?]]]; try discriminate.
  exists a, b. split; [done|]. by apply parseUint_atoi.
Qed.

Lemma appendInt4 n :
  0 ≤ n < 10000 →
  ∃ a b c d, time.appendInt n 4 = [a; b; c; d]
             ∧ time.parseUint [a; b; c; d] 0 9999 = Some n.
Proof.
  intros Hn.
  assert (Hok : time.digits_ok 4 n = true)
    by (apply (all_from_spec _ _ _ digits4); lia).
  unfold time.digits_ok in Hok.
  destruct (time.atoi (time.appendInt n 4) 0) as [k|] eqn:Hk; [|done].
  apply andb_prop in Hok as [->%Z.eqb_eq Hlen%Nat.eqb_eq].
  destruct (time.appendInt n 4) as [|a [|b [|c [|d [|? ?]]]]];
    try discriminate.
  exists a, b, c, d. split; [done|]. apply parseUint_atoi; [done|lia].
Qed.

(** An instant written in the RFC 3339 layout reads back as the same
    instant without the fraction of its second. *)
Lemma Parse_Format t :
  time.representable t →
  time.Parse_RFC3339 (time.Format_RFC3339 t) = (time.truncSecond t, None).
Proof.
  unfold time.representable, time.truncSecond. intros Ht.
  unfold time.Parse_RFC3339, time.Format_RFC3339.
  set (secs := t / time.Second).
  set (days := secs / time.secondsPerDay).
  set (rem := secs mod time.secondsPerDay).
  destruct (yearDay_spec days) as (y & yd & -> & Hdays & Hyd).
  destruct (monthDay_spec y yd Hyd) as (m & dd & -> & Hm & Hdd & Hmd).
  assert (Hrem : 0 ≤ rem < 86400)
    by (subst rem; unfold time.secondsPerDay; Z.div_mod_to_equations; lia).
  assert (Hsecs : secs = days * 86400 + rem)
    by (subst rem days; unfold time.secondsPerDay;
        Z.div_mod_to_equations; lia).
  assert (Hy : 0 ≤ y < 10000).
  { assert (time.daysSinceEpoch 0 ≤ days < time.daysSinceEpoch 10000) as Hr.
    { change (time.daysSinceEpoch 0) with (-366).
      change (time.daysSinceEpoch 10000) with 3652059.
      change (time.Date 0 1 1 0 0 0 0) with (-366 * 86400 * 1000000000) in Ht.
      change (time.Date 10000 1 1 0 0 0 0)
        with (3652059 * 86400 * 1000000000) in Ht.
      subst days secs. unfold time.secondsPerDay.
      change time.Second with 1000000000.
      Z.div_mod_to_equations. lia. }
    split.
    - destruct (decide (0 ≤ y)) as [|Hneg]; [done|].
      pose proof (daysSinceEpoch_mono (y + 1) 0 ltac:(lia)).
      rewrite daysSinceEpoch_succ in *. lia.
    - destruct (decide (y < 10000)) as [|Hbig]; [done|].
      pose proof (daysSinceEpoch_mono 10000 y ltac:(lia)). lia. }
  pose proof (daysIn_le m y Hm) as Hin.
  destruct (appendInt4 y Hy) as (y1 & y2 & y3 & y4 & -> & Hpy).
  destruct (appendInt2 m 1 12 ltac:(lia) ltac:(lia)) as (m1 & m2 & -> & Hpm).
  destruct (appendInt2 dd 1 (time.daysIn m y) ltac:(lia) ltac:(lia))
    as (d1 & d2 & -> & Hpd).
  destruct (appendInt2 (rem / 3600) 0 23
              ltac:(Z.div_mod_to_equations; lia)
              ltac:(Z.div_mod_to_equations; lia)) as (h1 & h2 & -> & Hph).
  destruct (appendInt2 (rem mod 3600 / 60) 0 59
              ltac:(Z.div_mod_to_equations; lia)
              ltac:(Z.div_mod_to_equations; lia)) as (i1 & i2 & -> & Hpi).
  destruct (appendInt2 (rem mod 60) 0 59
              ltac:(Z.div_mod_to_equations; lia)
              ltac:(Z.div_mod_to_equations; lia)) as (s1 & s2 & -> & Hps).
  rewrite String.list_ascii_of_string_of_list_ascii.
  cbn [app time.parseRFC3339].
  rewrite Hpy, Hpm. cbn [mbind option_bind]. rewrite Hpd, Hph, Hpi, Hps.
  cbn -[time.Date Z.mul].
  f_equal. unfold time.Date, time.secondsPerDay.
  replace (time.daysSinceEpoch y + time.daysBefore (m - 1)
           + (if time.isLeap y && (3 <=? m) then 1 else 0) + (dd - 1))
    with days by lia.
  assert (Ht' : t - t mod time.Second = secs * time.Second)
    by (subst secs; change time.Second with 1000000000;
        Z.div_mod_to_equations; lia).
  rewrite Ht', Hsecs. change time.Second with 1000000000.
  Z.div_mod_to_equations. lia.
Qed.

(** A string that does not parse leaves the zero [Time]. *)
Lemma Parse_error value e :
  (time.Parse_RFC3339 value).2 = Some e →
  (time.Parse_RFC3339 value).1 = time.zero.
Proof.
  unfold time.Parse_RFC3339. cbv zeta.
  destruct (time.parseRFC3339 _); [done|]. by destruct (time.parse _).
Qed.

Lemma Parse_empty : time.Parse_RFC3339 "" = (time.zero, Some (ParseError "")).
Proof. reflexivity. Qed.

(** Spellings that only the layout parser takes: an hour of one digit, a
    comma before the fraction, a zone of 24 hours or of 60 minutes. *)
Example Parse_layout :
  time.Parse_RFC3339 "2024-01-16T9:00:00Z"
  = (time.Date 2024 1 16 9 0 0 0, None)
  ∧ time.Parse_RFC3339 "2024-01-16T09:00:00,5Z"
    = (time.Date 2024 1 16 9 0 0 500000000, None)
  ∧ time.Parse_RFC3339 "2024-01-16T09:00:00+24:00"
    = (time.Date 2024 1 15 9 0 0 0, None)
  ∧ time.Parse_RFC3339 "2024-01-16T09:00:00-00:60"
    = (time.Date 2024 1 16 10 0 0 0, None)
  ∧ Forall (λ value, time.parseRFC3339 (String.list_ascii_of_string value)
                     = None)
      ["2024-01-16T9:00:00Z"; "2024-01-16T09:00:00,5Z";
       "2024-01-16T09:00:00+24:00"; "2024-01-16T09:00:00-00:60"]%string.
Proof.
  repeat (split; [vm_compute; reflexivity|]).
  repeat (apply List.Forall_cons; [vm_compute; reflexivity|]).
  apply List.Forall_nil.
Qed.

(** Values that do not parse: an offset of 25 hours, a month of one
    digit, an hour of 24, a second of 60, the 30th of February, text after
    the zone, a lower-case [t] or [z], no zone at all. *)
Example Parse_rejects :
  Forall (λ value, (time.Parse_RFC3339 value).2 = Some (ParseError value))
    ["2024-01-16T09:00:00+25:00"; "2024-1-16T09:00:00Z";
     "2024-01-16T24:00:00Z"; "2024-01-16T09:00:60Z"; "2024-02-30T09:00:00Z";
     "2024-01-16T09:00:00Z "; "2024-01-16t09:00:00Z"; "2024-01-16T09:00:00z";
     "2024-01-16T09:00:00"; "tomorrow"]%string.
Proof.
  repeat (apply List.Forall_cons; [vm_compute; reflexivity|]).
  apply List.Forall_nil.
Qed.

(** ** Durations *)

Lemma Duration_mul_Hour n :
  -2562047 ≤ n ≤ 2562047 → time.Duration_mul n time.Hour = n * time.Hour.
Proof.
  intros Hn. unfold time.Duration_mul, wrap64.
  change time.Hour with 3600000000000.
  change (2 ^ 63) with 9223372036854775808.
  change (2 ^ 64) with 18446744073709551616.
  rewrite Z.mod_small; lia.
Qed.

Lemma Sub_exact t u :
  minInt64 ≤ t - u ≤ maxInt64 → time.Sub t u = t - u.
Proof.
  intros Hr. unfold time.Sub.
  destruct (Z.ltb_spec maxInt64 (t - u)); [lia|].
  destruct (Z.ltb_spec (t - u) minInt64); [lia|done].
Qed.

Lemma Sub_sign t u : 0 < time.Sub t u ↔ u < t.
Proof.
  unfold time.Sub, maxInt64, minInt64.
  change (2 ^ 63) with 9223372036854775808.
  destruct (Z.ltb_spec (9223372036854775808 - 1) (t - u)); [lia|].
  destruct (Z.ltb_spec (t - u) (- (9223372036854775808))); lia.
Qed.

(** ** [int(d.Hours())] *)

(** [Hours_int] is what binary64 arithmetic gives on the sample
    durations. *)
Lemma Hours_int_float64 :
  forallb time.Hours_agree time.Hours_samples = true.
Proof. vm_compute. reflexivity. Qed.

Example Hours_int_examples :
  time.Hours_int (2 * time.Hour - 1) = 1
  ∧ time.Hours_int (4096 * time.Hour - 1) = 4095
  ∧ time.Hours_int (4097 * time.Hour - 1) = 4097
  ∧ time.Hours_int (5000 * time.Hour - 1) = 5000
  ∧ time.Hours_int (5000 * time.Hour - 2) = 4999
  ∧ time.Hours_int (2562047 * time.Hour - 838) = 2562047
  ∧ time.Hours_int (2562047 * time.Hour - 839) = 2562046
  ∧ time.Hours_int maxInt64 = 2562047.
Proof. vm_compute. done. Qed.

Lemma Hours_int_pos d :
  0 < d →
  time.Hours_int d
  = d / time.Hour
    + (if time.Hours_roundsUp (d / time.Hour) (d mod time.Hour) then 1 else 0).
Proof.
  intros Hd. unfold time.Hours_int. cbv zeta.
  change time.Hour with 3600000000000.
  rewrite Z.quot_div_nonneg, Z.rem_mod_nonneg by lia.
  rewrite Z.sgn_pos by done.
  rewrite !Z.abs_eq by (Z.div_mod_to_equations; lia). lia.
Qed.

(** The sum is rounded up only from 4096 hours on, and only for what is
    within 838 ns of the next whole hour. *)
Lemma Hours_roundsUp_true hour nsec :
  hour ≤ 2562047 → nsec < time.Hour →
  time.Hours_roundsUp hour nsec = true →
  4096 ≤ hour ∧ time.Hour - 839 < nsec.
Proof.
  intros Hhour Hnsec. unfold time.Hours_roundsUp.
  intros [Hpos%Z.ltb_lt Hlt%Z.ltb_lt]%andb_prop.
  change time.Hour with 3600000000000 in *.
  change (2 ^ 54) with 18014398509481984 in Hlt.
  assert (Hlog : Z.log2 hour < 22) by (apply Z.log2_lt_pow2; [done|]; lia).
  pose proof (Z.log2_nonneg hour) as Hnn.
  assert (Hpow : 2 ^ (Z.log2 hour + 1) ≤ 2 ^ 22)
    by (apply Z.pow_le_mono_r; lia).
  change (2 ^ 22) with 4194304 in Hpow.
  split; [|lia].
  destruct (decide (4096 ≤ hour)) as [|Hsmall]; [done|].
  assert (Hlog' : Z.log2 hour < 12) by (apply Z.log2_lt_pow2; [done|]; lia).
  assert (Hpow' : 2 ^ (Z.log2 hour + 1) ≤ 2 ^ 12)
    by (apply Z.pow_le_mono_r; lia).
  change (2 ^ 12) with 4096 in Hpow'. lia.
Qed.

Lemma Hours_roundsUp_mono hour nsec1 nsec2 :
  nsec1 ≤ nsec2 →
  time.Hours_roundsUp hour nsec1 = true →
  time.Hours_roundsUp hour nsec2 = true.
Proof.
  intros Hle. unfold time.Hours_roundsUp.
  intros [Hpos Hlt%Z.ltb_lt]%andb_prop.
  apply andb_true_intro. split; [done|]. apply Z.ltb_lt.
  change (2 ^ 54) with 18014398509481984 in *. lia.
Qed.

(** What [int(d.Hours())] is for a positive duration: the whole hours of
    [d], or one more; the whole hours up to 4096 hours; never more than
    the hours of the longest duration; never an hour that is more than a
    microsecond away. *)
Lemma Hours_int_bounds d :
  0 < d ≤ maxInt64 →
  d / time.Hour ≤ time.Hours_int d ≤ d / time.Hour + 1
  ∧ time.Hours_int d ≤ 2562047
  ∧ time.Hours_int d * time.Hour < d + time.Microsecond
  ∧ (d ≤ 4096 * time.Hour → time.Hours_int d = d / time.Hour).
Proof.
  intros Hd. unfold maxInt64 in Hd.
  change (2 ^ 63) with 9223372036854775808 in Hd.
  rewrite Hours_int_pos by lia.
  destruct (time.Hours_roundsUp _ _) eqn:Hup.
  - apply Hours_roundsUp_true in Hup as [Hbig Hnear];
      change time.Hour with 3600000000000 in *;
      change time.Microsecond with 1000;
      [|Z.div_mod_to_equations; lia..].
    Z.div_mod_to_equations. lia.
  - change time.Hour with 3600000000000 in *.
    change time.Microsecond with 1000.
    Z.div_mod_to_equations. lia.
Qed.

Lemma Hours_int_mono d1 d2 :
  0 < d1 → d1 ≤ d2 → time.Hours_int d1 ≤ time.Hours_int d2.
Proof.
  intros Hd1 Hd2. rewrite !Hours_int_pos by lia.
  destruct (decide (d1 / time.Hour = d2 / time.Hour)) as [Heq|Hne].
  - rewrite Heq.
    destruct (time.Hours_roundsUp _ (d1 mod _)) eqn:Hup1;
      destruct (time.Hours_roundsUp _ (d2 mod _)) eqn:Hup2; try lia.
    rewrite (Hours_roundsUp_mono _ (d1 mod time.Hour) (d2 mod time.Hour))
      in Hup2; [done| |done].
    change time.Hour with 3600000000000 in *.
    Z.div_mod_to_equations. lia.
  - assert (d1 / time.Hour < d2 / time.Hour).
    { pose proof (Z.div_le_mono d1 d2 time.Hour eq_refl Hd2). lia. }
    destruct (time.Hours_roundsUp _ (d1 mod _)),
      (time.Hours_roundsUp _ (d2 mod _)); lia.
Qed.

(** ** [ListNamespaces] as a function of the reply and of the clock *)

Section List.
Context {W : Type} `{World W}.

Lemma expiry_eq str (s : State W) :
  (if negb (String.eqb str "") then
     let '(expiresAt, err) := time.Parse_RFC3339 str in
     match err with
     | None =>
         bind (time_Until expiresAt) (λ remaining,
           ret (expiresAt,
                if 0 <? remaining then time.Hours_int remaining else 0))
     | Some _ => ret (expiresAt, 0)
     end
   else ret (time.zero, 0)) s
  = (kube.expiry (Now (world s)) str, s).
Proof.
  unfold kube.expiry. destruct (String.eqb str ""); simpl; [done|].
  destruct (time.Parse_RFC3339 str) as [expiresAt [e|]]; done.
Qed.

Lemma listItem_eq owner result ns (s : State W) :
  kube.listItem owner result ns s
  = (if kube.selected owner ns
     then result ++ [kube.view (Now (world s)) ns] else result, s).
Proof.
  unfold kube.listItem, kube.selected.
  destruct (String.eqb owner ""); simpl.
  - unfold bind at 1. rewrite expiry_eq.
    unfold kube.view. by destruct (kube.expiry _ _).
  - destruct (String.eqb (index (corev1.Annotations ns) "owner") owner);
      simpl; [|done].
    unfold bind at 1. rewrite expiry_eq.
    unfold kube.view. by destruct (kube.expiry _ _).
Qed.

Lemma for_range_listItem owner items : ∀ acc (s : State W),
  for_range items (kube.listItem owner) acc s
  = (acc ++ kube.views owner (Now (world s)) items, s).
Proof.
  unfold kube.views.
  induction items as [|ns items IH]; intros acc s; simpl.
  - by rewrite app_nil_r.
  - unfold bind. rewrite listItem_eq, IH.
    destruct (kube.selected owner ns); [|done].
    simpl. by rewrite <- app_assoc.
Qed.

(** What [ListNamespaces] returns, from what the clientset replied. *)
Lemma ListNamespaces_eq owner (s : State W) :
  kube.ListNamespaces owner s
  = (match (List context.Background (world s)).1 with
     | (_, Some e) => ([], Some e)
     | (items, None) =>
         (kube.views owner (Now (List context.Background (world s)).2) items,
          None)
     end,
     mkState (List context.Background (world s)).2
             (calls s ++ [CallList context.Background])).
Proof.
  unfold kube.ListNamespaces, Namespaces_List, perform, bind.
  destruct (List context.Background (world s)) as [[items [e|]] w'];
    simpl; [done|].
  by rewrite for_range_listItem.
Qed.

End List.

Lemma views_app owner now l1 l2 :
  kube.views owner now (l1 ++ l2)
  = kube.views owner now l1 ++ kube.views owner now l2.
Proof. unfold kube.views. by rewrite List.filter_app, map_app. Qed.

Lemma views_cons owner now ns l :
  kube.views owner now (ns :: l)
  = (if kube.selected owner ns then [kube.view now ns] else [])
      ++ kube.views owner now l.
Proof. unfold kube.views. simpl. by destruct (kube.selected owner ns). Qed.

Lemma selected_owner f ns :
  f ≠ ""%string →
  kube.selected f ns = String.eqb (kube.Owner (kube.view 0 ns)) f.
Proof.
  intros Hf. unfold kube.selected. simpl.
  by destruct (String.eqb_spec f "").
Qed.

Lemma views_all now items : kube.views "" now items = map (kube.view now) items.
Proof.
  unfold kube.views. f_equal.
  induction items as [|ns items IH]; simpl; [done|]. by rewrite IH.
Qed.

Lemma views_filter f now items :
  f ≠ ""%string →
  kube.views f now items
  = List.filter (λ v, String.eqb (kube.Owner v) f) (kube.views "" now items).
Proof.
  intros Hf. rewrite views_all. unfold kube.views.
  induction items as [|ns items IH]; simpl; [done|].
  rewrite (selected_owner f ns Hf). simpl.
  destruct (String.eqb _ f); simpl; by rewrite IH.
Qed.

(** ** Listing *)

(** C8: when the clientset's list call fails, [ListNamespaces] returns
    that error and no view at all, whatever the owner filter and whatever
    items came along with the error. *)
Theorem ListNamespaces_gateway_failure {W} `{World W} owner (s : State W)
    items e w' :
  List context.Background (world s) = ((items, Some e), w') →
  kube.ListNamespaces owner s
  = (([], Some e), mkState w' (calls s ++ [CallList context.Background])).
Proof. intros HL. rewrite ListNamespaces_eq, HL. done. Qed.

Lemma ListNamespaces_gateway_failure_witness :
  let sc := script None None get_gone
              ([demo t0 2], Some (TransportError "connection reset")) in
  @List _ (Sim sc) context.Background t0
  = (([demo t0 2], Some (TransportError "connection reset")), t0 + 1000000)
  ∧ @kube.ListNamespaces _ (Sim sc) "alice" (mkState t0 [])
    = (([], Some (TransportError "connection reset")),
       mkState (t0 + 1000000) ([] ++ [CallList context.Background])).
Proof.
  intros sc. split; [reflexivity|].
  apply (ListNamespaces_gateway_failure (H := Sim sc) "alice" (mkState t0 [])
           [demo t0 2]).
  reflexivity.
Defined.

(** C4: for a non-empty owner filter [f], [ListNamespaces f] returns the
    views of [ListNamespaces ""] whose owner is [f], in the same order (and
    the same error); [ListNamespaces ""] returns one view per record of the
    reply, none left out. *)
Theorem ListNamespaces_owner_filter {W} `{World W} (f : string)
    (s : State W) :
  (f ≠ ""%string →
   (kube.ListNamespaces f s).1
   = (List.filter (λ v, String.eqb (kube.Owner v) f)
        (kube.ListNamespaces "" s).1.1,
      (kube.ListNamespaces "" s).1.2))
  ∧ (∀ items w',
       List context.Background (world s) = ((items, None), w') →
       (kube.ListNamespaces "" s).1 = (map (kube.view (Now w')) items, None)).
Proof.
  split.
  - intros Hf. rewrite !ListNamespaces_eq. simpl.
    destruct (List context.Background (world s)) as [[items [e|]] w'];
      simpl; [done|].
    by rewrite (views_filter f) by done.
  - intros items w' HL. rewrite ListNamespaces_eq, HL. simpl.
    by rewrite views_all.
Qed.

Lemma ListNamespaces_owner_filter_witness :
  let sc := script None None get_gone ([bare; demo t0 2; garbled], None) in
  let now := t0 + 1000000 in
  ("alice" ≠ ""%string
   ∧ (@kube.ListNamespaces _ (Sim sc) "alice" (mkState t0 [])).1
     = ([kube.view now (demo t0 2)], None))
  ∧ (@List _ (Sim sc) context.Background t0
     = (([bare; demo t0 2; garbled], None), now)
     ∧ (@kube.ListNamespaces _ (Sim sc) "" (mkState t0 [])).1
       = ([kube.view now bare; kube.view now (demo t0 2);
           kube.view now garbled], None)).
Proof.
  intros sc now. split.
  - split; [discriminate|].
    rewrite (proj1 (ListNamespaces_owner_filter (H := Sim sc) "alice"
                      (mkState t0 []))) by discriminate.
    reflexivity.
  - split; [reflexivity|].
    apply (proj2 (ListNamespaces_owner_filter (H := Sim sc) "alice"
                    (mkState t0 [])) [bare; demo t0 2; garbled] now).
    reflexivity.
Defined.

(** C10: a record without an [owner] annotation has the empty owner: it
    is in the result of [ListNamespaces ""], with an empty [Owner], and in
    the result of no [ListNamespaces f] with [f] non-empty. *)
Theorem ListNamespaces_missing_owner {W} `{World W} (s : State W)
    l1 ns l2 w' :
  corev1.Annotations ns !! "owner"%string = None →
  List context.Background (world s) = ((l1 ++ ns :: l2, None), w') →
  (∃ v, (kube.ListNamespaces "" s).1
        = (map (kube.view (Now w')) l1 ++ v :: map (kube.view (Now w')) l2,
           None)
        ∧ kube.Name v = corev1.Name ns ∧ kube.Owner v = ""%string)
  ∧ (∀ f, f ≠ ""%string →
       (kube.ListNamespaces f s).1
       = (kube.views f (Now w') l1 ++ kube.views f (Now w') l2, None)).
Proof.
  intros Hown HL. split.
  - exists (kube.view (Now w') ns).
    rewrite ListNamespaces_eq, HL. simpl.
    rewrite views_all, map_app. simpl.
    unfold index. by rewrite Hown.
  - intros f Hf. rewrite ListNamespaces_eq, HL. simpl.
    rewrite views_app, views_cons.
    unfold kube.selected, index. rewrite Hown. simpl.
    destruct f as [|c f']; [done|]. done.
Qed.

Lemma ListNamespaces_missing_owner_witness :
  let sc := script None None get_gone ([demo t0 2; bare; garbled], None) in
  let now := t0 + 1000000 in
  corev1.Annotations bare !! "owner"%string = None
  ∧ @List _ (Sim sc) context.Background t0
    = (([demo t0 2] ++ bare :: [garbled], None), now)
  ∧ (∃ v, (@kube.ListNamespaces _ (Sim sc) "" (mkState t0 [])).1
          = (map (kube.view now) [demo t0 2]
               ++ v :: map (kube.view now) [garbled], None)
          ∧ kube.Name v = "kube-system"%string ∧ kube.Owner v = ""%string)
  ∧ (@kube.ListNamespaces _ (Sim sc) "bob" (mkState t0 [])).1
    = ([kube.view now garbled], None).
Proof.
  intros sc now.
  pose proof (ListNamespaces_missing_owner (H := Sim sc) (mkState t0 [])
                [demo t0 2] bare [garbled] now) as Hthm.
  split; [reflexivity|]. split; [reflexivity|].
  destruct Hthm as [Hall Hf]; [reflexivity|reflexivity|].
  split; [exact Hall|].
  rewrite (Hf "bob"%string) by discriminate. reflexivity.
Defined.

(** C7: a record without an [expires_at] annotation, or whose
    [expires_at] does not parse, does not make [ListNamespaces] fail: if it
    passes the owner filter it is in the result with a TTL of 0 and the
    zero [ExpiresAt], and the call returns no error. *)
Theorem ListNamespaces_missing_expiry {W} `{World W} owner (s : State W)
    l1 ns l2 w' :
  corev1.Annotations ns !! "expires_at"%string = None
  ∨ (time.Parse_RFC3339 (index (corev1.Annotations ns) "expires_at")).2
    ≠ None →
  owner = ""%string ∨ index (corev1.Annotations ns) "owner" = owner →
  List context.Background (world s) = ((l1 ++ ns :: l2, None), w') →
  ∃ v, (kube.ListNamespaces owner s).1
       = (kube.views owner (Now w') l1 ++ v :: kube.views owner (Now w') l2,
          None)
       ∧ kube.Name v = corev1.Name ns
       ∧ kube.TTL v = 0 ∧ kube.ExpiresAt v = time.zero.
Proof.
  intros Hexp Hsel HL.
  exists (kube.view (Now w') ns).
  rewrite ListNamespaces_eq, HL. simpl.
  rewrite views_app, views_cons.
  assert (kube.selected owner ns = true) as ->.
  { unfold kube.selected. destruct Hsel as [->| ->]; [done|].
    rewrite String.eqb_refl. apply orb_true_r. }
  split; [done|]. split; [done|].
  unfold kube.expiry.
  destruct Hexp as [Hnone|Herr].
  - unfold index. rewrite Hnone. done.
  - destruct (String.eqb _ ""); [done|].
    destruct (time.Parse_RFC3339 _) as [t [e|]] eqn:HP; [|done].
    simpl. split; [done|].
    pose proof (Parse_error (index (corev1.Annotations ns) "expires_at") e)
      as Hz.
    rewrite HP in Hz. by apply Hz.
Qed.

Lemma ListNamespaces_missing_expiry_witness :
  let sc := script None None get_gone ([demo t0 2; bare; garbled], None) in
  let now := t0 + 1000000 in
  (corev1.Annotations bare !! "expires_at"%string = None
   ∧ ∃ v, (@kube.ListNamespaces _ (Sim sc) "" (mkState t0 [])).1
          = (kube.views "" now [demo t0 2] ++ v :: kube.views "" now [garbled],
             None)
          ∧ kube.Name v = "kube-system"%string
          ∧ kube.TTL v = 0 ∧ kube.ExpiresAt v = time.zero)
  ∧ ((time.Parse_RFC3339 (index (corev1.Annotations garbled) "expires_at")).2
     ≠ None
     ∧ ∃ v, (@kube.ListNamespaces _ (Sim sc) "bob" (mkState t0 [])).1
            = (kube.views "bob" now [demo t0 2; bare] ++ v
                 :: kube.views "bob" now [], None)
            ∧ kube.Name v = "scratch"%string
            ∧ kube.TTL v = 0 ∧ kube.ExpiresAt v = time.zero).
Proof.
  intros sc now. split.
  - split; [reflexivity|].
    apply (ListNamespaces_missing_expiry (H := Sim sc) "" (mkState t0 [])
             [demo t0 2] bare [garbled] now).
    + left. reflexivity.
    + left. reflexivity.
    + reflexivity.
  - split; [discriminate|].
    apply (ListNamespaces_missing_expiry (H := Sim sc) "bob" (mkState t0 [])
             [demo t0 2; bare] garbled [] now).
    + right. discriminate.
    + right. reflexivity.
    + reflexivity.
Defined.

(** ** Deleting *)

Section Delete.
Context {W : Type} `{World W}.

(** One turn of the poll loop. *)
Lemma poll_step fuel ctx name (s : State W) :
  kube.poll (S fuel) ctx name s
  = let w1 := (Get ctx name (world s)).2 in
    let s1 := mkState w1 (calls s ++ [CallGet ctx name]) in
    match (Get ctx name (world s)).1.2 with
    | Some _ => (Returned None, s1)
    | None =>
        if context.Done ctx (Now w1)
        then (Returned (context.Err ctx (Now w1)), s1)
        else kube.poll fuel ctx name
               (mkState (Sleep (500 * time.Millisecond) w1) (calls s1))
    end.
Proof.
  simpl. unfold bind, Namespaces_Get, perform.
  destruct (Get ctx name (world s)) as [[r [e|]] w1]; simpl; [done|].
  by destruct (context.Done ctx (Now w1)).
Qed.

(** More fuel does not change what the loop returns. *)
Lemma poll_fuel_mono ctx name : ∀ n (s : State W) r s',
  kube.poll n ctx name s = (Returned r, s') →
  ∀ m, (n ≤ m)%nat → kube.poll m ctx name s = (Returned r, s').
Proof.
  induction n as [|n IH]; intros s r s' Hn m Hm; [discriminate|].
  destruct m as [|m]; [lia|].
  rewrite poll_step in *. cbv zeta in *.
  destruct ((Get ctx name (world s)).1.2); [done|].
  destruct (context.Done ctx (Now (Get ctx name (world s)).2)); [done|].
  apply (IH _ _ _ Hn). lia.
Qed.

(** If none of its [Get]s fails, the loop ends on the deadline, with the
    context's error ... *)
Lemma poll_deadline `{!Monotone W} ctx name D w1 :
  context.deadline ctx = Some D →
  (∀ w, kube.polls ctx name w1 w → (Get ctx name w).1.2 = None) →
  ∀ n (s : State W),
    kube.polls ctx name w1 (world s) →
    D - Now (world s) ≤ Z.of_nat n * (500 * time.Millisecond) →
    ∃ s' k,
      kube.poll (S n) ctx name s = (Returned (Some DeadlineExceeded), s')
      ∧ D ≤ Now (world s')
      ∧ (1 ≤ k ≤ S n)%nat
      ∧ calls s' = calls s ++ replicate k (CallGet ctx name).
Proof.
  intros HD Hget. induction n as [|n IH]; intros s Hs Hn.
  - rewrite poll_step, (Hget _ Hs). cbv zeta.
    pose proof (Get_clock ctx name (world s)) as Hclock.
    unfold context.Err, context.Done. rewrite HD.
    destruct (Z.leb_spec D (Now (Get ctx name (world s)).2)); [|lia].
    eexists _, 1%nat. split; [reflexivity|]. simpl.
    split; [done|]. split; [lia|done].
  - rewrite poll_step, (Hget _ Hs). cbv zeta.
    pose proof (Get_clock ctx name (world s)) as Hclock.
    destruct (context.Done ctx (Now (Get ctx name (world s)).2)) eqn:Hdone.
    + unfold context.Err. rewrite Hdone.
      unfold context.Done in Hdone. rewrite HD in Hdone.
      apply Z.leb_le in Hdone.
      eexists _, 1%nat. split; [reflexivity|]. simpl.
      split; [done|]. split; [lia|done].
    + set (s2 := mkState _ _).
      destruct (IH s2) as (s' & k & Hpoll & Hs' & Hk & Hcalls).
      { subst s2. simpl. by apply kube.polls_next; [|apply Hget|]. }
      { subst s2. simpl.
        pose proof (Sleep_clock (500 * time.Millisecond)
                      (Get ctx name (world s)).2).
        lia. }
      exists s', (S k). rewrite Hpoll.
      split; [done|]. split; [done|]. split; [lia|].
      rewrite Hcalls. subst s2. simpl. by rewrite <- app_assoc.
Qed.

(** Whatever the clientset replies, the loop returns: a turn that does
    not end it sleeps for half a second, so the deadline is reached after
    sixty turns at most. *)
Lemma poll_returns `{!Monotone W} ctx name D :
  context.deadline ctx = Some D →
  ∀ n (s : State W),
    D - Now (world s) ≤ Z.of_nat n * (500 * time.Millisecond) →
    ∃ r s', kube.poll (S n) ctx name s = (Returned r, s').
Proof.
  intros HD. induction n as [|n IH]; intros s Hn;
    rewrite poll_step; cbv zeta;
    pose proof (Get_clock ctx name (world s)) as Hclock;
    (destruct ((Get ctx name (world s)).1.2); [by eexists _, _|]);
    unfold context.Done at 1; rewrite HD;
    (destruct (Z.leb_spec D (Now (Get ctx name (world s)).2));
       [by eexists _, _|]).
  - lia.
  - apply IH. simpl.
    pose proof (Sleep_clock (500 * time.Millisecond)
                  (Get ctx name (world s)).2).
    lia.
Qed.

(** ... and with a client that honours the context, whose [Get] fails
    once the deadline has passed, it never returns anything else: the
    deadline's own error is taken for the namespace being gone. *)
Lemma poll_honoured_deadline ctx name :
  (∀ w, context.Done ctx (Now (Get ctx name w).2) = true →
        (Get ctx name w).1.2 ≠ None) →
  ∀ n (s : State W) r s',
    kube.poll n ctx name s = (Returned r, s') → r = None.
Proof.
  intros Hhon. induction n as [|n IH]; intros s r s' Hn; [discriminate|].
  rewrite poll_step in Hn. cbv zeta in Hn.
  destruct ((Get ctx name (world s)).1.2) eqn:Hget; [congruence|].
  destruct (context.Done ctx _) eqn:Hdone; [|by eapply IH].
  by destruct (Hhon _ Hdone).
Qed.

End Delete.

Lemma Sim_Monotone sc : @Monotone _ (Sim sc).
Proof. split; simpl; intros; lia. Qed.

(** C2: in the poll loop every failed [Get], of whatever kind, ends the
    loop at once with a nil error, that is, with the deletion reported as
    done. *)
Theorem poll_fetch_failure {W} `{World W} fuel ctx name (s : State W)
    r e w' :
  Get ctx name (world s) = ((r, Some e), w') →
  kube.poll (S fuel) ctx name s
  = (Returned None, mkState w' (calls s ++ [CallGet ctx name])).
Proof. intros HG. rewrite poll_step, HG. done. Qed.

Lemma poll_fetch_failure_witness :
  let sc := script None None get_forbidden ([], None) in
  let ctx := context.WithTimeout context.Background (30 * time.Second) t0 in
  @Get _ (Sim sc) ctx "demo" t0
  = ((None, Some (StatusForbidden "demo")), t0 + 1000000)
  ∧ @kube.poll _ (Sim sc) 1 ctx "demo" (mkState t0 [])
    = (Returned None, mkState (t0 + 1000000) ([] ++ [CallGet ctx "demo"])).
Proof.
  intros sc ctx. split; [reflexivity|].
  apply (poll_fetch_failure (H := Sim sc) 0 ctx "demo" (mkState t0 []) None
           (StatusForbidden "demo")).
  reflexivity.
Defined.

(** C6: when the clientset's delete call fails, [DeleteNamespace] returns
    that error at once; the delete call is the only call it has issued, so
    no [Get] was made. *)
Theorem DeleteNamespace_submit_failure {W} `{World W} fuel name
    (s : State W) e w' :
  Delete context.Background name (world s) = (Some e, w') →
  kube.DeleteNamespace fuel name s
  = (Returned (Some e),
     mkState w' (calls s ++ [CallDelete context.Background name])).
Proof.
  intros HD. unfold kube.DeleteNamespace, bind, Namespaces_Delete, perform.
  rewrite HD. done.
Qed.

Lemma DeleteNamespace_submit_failure_witness :
  let sc := script None (Some (StatusNotFound "demo")) (get_found (demo t0 2))
              ([], None) in
  @Delete _ (Sim sc) context.Background "demo" t0
  = (Some (StatusNotFound "demo"), t0 + 1000000)
  ∧ @kube.DeleteNamespace _ (Sim sc) 0 "demo" (mkState t0 [])
    = (Returned (Some (StatusNotFound "demo")),
       mkState (t0 + 1000000) ([] ++ [CallDelete context.Background "demo"])).
Proof.
  intros sc. split; [reflexivity|].
  apply (DeleteNamespace_submit_failure (H := Sim sc) 0 "demo" (mkState t0 [])).
  reflexivity.
Defined.

(** After a delete call that succeeded, (a) if the first [Get] fails
    with not-found, [DeleteNamespace] returns nil after that one [Get];
    (b) with a clientset whose [Get] finds the namespace every time the
    loop calls it, also when the call returns after the deadline of its
    context, [DeleteNamespace] returns the deadline error, not before
    30 seconds have passed since the delete call returned, after 61 polls
    at most.  For (b) the clock must not run backwards during a [Get] and
    [time.Sleep] must pause for as long as it is asked to.  (The
    clientset of the program gives up a [Get] at the deadline, and then
    (b) is not what happens: that [Get] fails and ends the loop with a
    nil error.) *)
Theorem DeleteNamespace_confirmation {W} `{World W} name (s : State W) w1 :
  Delete context.Background name (world s) = (None, w1) →
  let ctx :=
    context.WithTimeout context.Background (30 * time.Second) (Now w1) in
  (∀ fuel r msg w2,
     Get ctx name w1 = ((r, Some (StatusNotFound msg)), w2) →
     kube.DeleteNamespace (S fuel) name s
     = (Returned None,
        mkState w2 (calls s ++ [CallDelete context.Background name;
                                CallGet ctx name])))
  ∧ (Monotone W →
     (∀ w, kube.polls ctx name w1 w → (Get ctx name w).1.2 = None) →
     ∀ fuel, (61 ≤ fuel)%nat →
       ∃ s' k,
         kube.DeleteNamespace fuel name s
         = (Returned (Some DeadlineExceeded), s')
         ∧ Now w1 + 30 * time.Second ≤ Now (world s')
         ∧ (1 ≤ k ≤ 61)%nat
         ∧ calls s' = calls s ++ CallDelete context.Background name
                               :: replicate k (CallGet ctx name)).
Proof.
  intros HD ctx.
  assert (Hdel : ∀ fuel,
            kube.DeleteNamespace fuel name s
            = kube.poll fuel ctx name
                (mkState w1 (calls s ++ [CallDelete context.Background name]))).
  { intros fuel.
    unfold kube.DeleteNamespace, bind, Namespaces_Delete, perform.
    rewrite HD. done. }
  split.
  - intros fuel r msg w2 HG. rewrite Hdel, poll_step. simpl.
    rewrite HG. simpl. by rewrite <- app_assoc.
  - intros Hmono Hget fuel Hfuel. rewrite Hdel.
    set (s1 := mkState w1 _).
    destruct (poll_deadline ctx name (Now w1 + 30 * time.Second) w1
                eq_refl Hget 60 s1) as (s' & k & Hpoll & Hs' & Hk & Hcalls).
    { apply kube.polls_first. }
    { subst s1. simpl. change (500 * time.Millisecond) with 500000000.
      change (30 * time.Second) with 30000000000. lia. }
    exists s', k. split; [|split; [done|split; [done|]]].
    + by apply (poll_fuel_mono ctx name 61 s1).
    + rewrite Hcalls. subst s1. simpl. by rewrite <- app_assoc.
Qed.

Lemma DeleteNamespace_confirmation_witness :
  let gone := script None None get_gone ([], None) in
  let kept := script None None (get_found (demo t0 2)) ([demo t0 2], None) in
  let w1 := t0 + 1000000 in
  let ctx := context.WithTimeout context.Background (30 * time.Second) w1 in
  (@Delete _ (Sim gone) context.Background "demo" t0 = (None, w1)
   ∧ @Get _ (Sim gone) ctx "demo" w1
     = ((None, Some (StatusNotFound "demo")), w1 + 1000000)
   ∧ @kube.DeleteNamespace _ (Sim gone) 1 "demo" (mkState t0 [])
     = (Returned None,
        mkState (w1 + 1000000)
          ([] ++ [CallDelete context.Background "demo"; CallGet ctx "demo"])))
  ∧ (@Delete _ (Sim kept) context.Background "demo" t0 = (None, w1)
     ∧ (∀ w, @kube.polls _ (Sim kept) ctx "demo" w1 w →
             (@Get _ (Sim kept) ctx "demo" w).1.2 = None)
     ∧ ∃ s' k,
         @kube.DeleteNamespace _ (Sim kept) 61 "demo" (mkState t0 [])
         = (Returned (Some DeadlineExceeded), s')
         ∧ w1 + 30 * time.Second ≤ world s'
         ∧ (1 ≤ k ≤ 61)%nat
         ∧ calls s' = [] ++ CallDelete context.Background "demo"
                          :: replicate k (CallGet ctx "demo")).
Proof.
  intros gone kept w1 ctx. split.
  - split; [reflexivity|]. split; [reflexivity|].
    apply (proj1 (DeleteNamespace_confirmation (H := Sim gone) "demo"
                    (mkState t0 []) w1 eq_refl) 0%nat None "demo").
    reflexivity.
  - split; [reflexivity|]. split; [intros w _; reflexivity|].
    apply (proj2 (DeleteNamespace_confirmation (H := Sim kept) "demo"
                    (mkState t0 []) w1 eq_refl) (Sim_Monotone kept)).
    + intros w _. reflexivity.
    + lia.
Defined.

(** C1, second half, fails on the code.  The delete call succeeds and
    the namespace stays resolvable for the full 30 seconds: every [Get]
    answered before the deadline finds it.  The clientset honours the
    context, as client-go does, so the [Get] that is answered at the
    deadline fails with the context's error.  The loop takes that failure
    for the namespace being gone: [DeleteNamespace] returns nil, after
    the delete call and 61 [Get]s, more than 30 seconds after the delete
    call returned.  The [select] on [ctx.Done()] that was to report the
    timeout is not reached. *)
Theorem DeleteNamespace_honoured_deadline :
  let sc := script None None (get_until_deadline (demo t0 2))
              ([demo t0 2], None) in
  let w1 := t0 + 1 * time.Millisecond in
  let ctx := context.WithTimeout context.Background (30 * time.Second) w1 in
  let r := run sc (λ W H, kube.DeleteNamespace 100 "demo") t0 in
  @Delete _ (Sim sc) context.Background "demo" t0 = (None, w1)
  ∧ (∀ now, now < w1 + 30 * time.Second →
       on_get sc ctx "demo" now = (Some (demo t0 2), None))
  ∧ (∀ now, w1 + 30 * time.Second ≤ now →
       on_get sc ctx "demo" now = (None, Some DeadlineExceeded))
  ∧ r.1 = Returned None
  ∧ calls r.2 = CallDelete context.Background "demo"
                  :: replicate 61 (CallGet ctx "demo")
  ∧ world r.2 = w1 + 30061 * time.Millisecond.
Proof.
  intros sc w1 ctx r. split; [reflexivity|].
  split; [|split].
  - intros now Hnow.
    change (on_get sc ctx "demo" now)
      with (if w1 + 30 * time.Second <=? now
            then (None, Some DeadlineExceeded)
            else (Some (demo t0 2), None)).
    by destruct (Z.leb_spec (w1 + 30 * time.Second) now); [lia|].
  - intros now Hnow.
    change (on_get sc ctx "demo" now)
      with (if w1 + 30 * time.Second <=? now
            then (None, Some DeadlineExceeded)
            else (Some (demo t0 2), None)).
    by destruct (Z.leb_spec (w1 + 30 * time.Second) now); [|lia].
  - vm_compute. done.
Qed.

(** ** Creating *)

(** What [CreateNamespace] does: one create call, for the object built
    from the arguments and the clock, whose error is returned as it is. *)
Lemma CreateNamespace_eq {W} `{World W} name ttlHours owner team
    (s : State W) :
  let namespace :=
    kube.newNamespace (Now (world s)) name ttlHours owner team in
  kube.CreateNamespace name ttlHours owner team s
  = ((Create context.Background namespace (world s)).1.2,
     mkState (Create context.Background namespace (world s)).2
       (calls s ++ [CallCreate context.Background namespace])).
Proof.
  intros namespace.
  unfold kube.CreateNamespace, bind, time_Now, Namespaces_Create, perform.
  fold namespace.
  destruct (Create context.Background namespace (world s)) as [[r [e|]] w'];
    done.
Qed.

(** The object carries the given name and the three annotations, and no
    other; as long as [ttlHours] hours fit a [Duration], [expires_at] is
    the instant [ttlHours] hours after [now] in the RFC 3339 layout. *)
Lemma newNamespace_annotations now name ttlHours owner team :
  let namespace := kube.newNamespace now name ttlHours owner team in
  corev1.Name namespace = name
  ∧ dom (corev1.Annotations namespace)
    = ({[ "owner"; "team"; "expires_at" ]} : gset string)
  ∧ index (corev1.Annotations namespace) "owner" = owner
  ∧ index (corev1.Annotations namespace) "team" = team
  ∧ (-2562047 ≤ ttlHours ≤ 2562047 →
     index (corev1.Annotations namespace) "expires_at"
     = time.Format_RFC3339 (now + ttlHours * time.Hour)).
Proof.
  simpl. split; [done|]. split; [|split; [|split]].
  - rewrite !dom_insert_L, dom_singleton_L. set_solver.
  - unfold index. by simplify_map_eq.
  - unfold index. by simplify_map_eq.
  - intros Hr. unfold index. simplify_map_eq.
    unfold time.Add. by rewrite Duration_mul_Hour.
Qed.

(** C5, at a TTL of 2562048 hours: [ttlHours] hours no longer fit a
    [Duration], the product wraps around, and the namespace is created with
    an [expires_at] in the year 1734 where 2562048 hours after the call is
    in the year 2319. *)
Theorem CreateNamespace_ttl_overflow :
  let sc := script None None get_gone ([], None) in
  let now := time.Date 2026 11 1 10 0 0 0 in
  let r := run sc (λ W H, kube.CreateNamespace "demo" 2562048 "alice" "infra")
             now in
  r.1 = None
  ∧ (∃ namespace,
       calls r.2 = [CallCreate context.Background namespace]
       ∧ index (corev1.Annotations namespace) "expires_at"
         = "1734-07-23T10:25:26Z"%string)
  ∧ time.Format_RFC3339 (now + 2562048 * time.Hour)
    = "2319-02-11T10:00:00Z"%string.
Proof.
  intros sc now r. split; [reflexivity|]. split.
  - eexists. split; [reflexivity|]. vm_compute. reflexivity.
  - vm_compute. reflexivity.
Qed.

(** ** The request shim *)

(** C9: a POST request whose body decodes but has an empty name, owner or
    team, or a TTL that is not positive, is answered with status 400 and
    nothing else happens: no clientset call is issued, so
    [CreateNamespace] was not run.  [CreateNamespace] itself checks
    nothing: whatever its arguments, it issues its one create call and
    returns that call's error. *)
Theorem HandleCreateNamespaceRequest_validation {W} `{World W} :
  (∀ r req (s : State W),
     httpserver.Method r = httpserver.MethodPost →
     httpserver.Decode r = (req, None) →
     httpserver.Name req = ""%string ∨ httpserver.Owner req = ""%string
     ∨ httpserver.Team req = ""%string ∨ httpserver.TTL req ≤ 0 →
     ∃ resp,
       httpserver.HandleCreateNamespaceRequest r s = (resp, s)
       ∧ httpserver.StatusCode resp = httpserver.StatusBadRequest)
  ∧ (∀ name ttlHours owner team (s : State W),
       let namespace :=
         kube.newNamespace (Now (world s)) name ttlHours owner team in
       (kube.CreateNamespace name ttlHours owner team s).1
       = (Create context.Background namespace (world s)).1.2
       ∧ calls (kube.CreateNamespace name ttlHours owner team s).2
         = calls s ++ [CallCreate context.Background namespace]).
Proof.
  split.
  - intros r req s HM HD Hbad.
    unfold httpserver.HandleCreateNamespaceRequest.
    rewrite HM, HD. simpl.
    destruct (String.eqb_spec (httpserver.Name req) ""); [by eexists|].
    destruct (String.eqb_spec (httpserver.Owner req) ""); [by eexists|].
    destruct (String.eqb_spec (httpserver.Team req) ""); [by eexists|].
    destruct (Z.leb_spec (httpserver.TTL req) 0); [by eexists|].
    destruct Hbad as [?|[?|[?|?]]]; [done..|lia].
  - intros name ttlHours owner team s namespace.
    rewrite CreateNamespace_eq. done.
Qed.

Lemma HandleCreateNamespaceRequest_validation_witness :
  let sc := script None None get_gone ([], None) in
  let req := httpserver.mkCreateNamespaceRequest "demo" 2 "" "infra" in
  let r := httpserver.mkRequest "POST" (req, None) in
  httpserver.Method r = httpserver.MethodPost
  ∧ httpserver.Decode r = (req, None)
  ∧ httpserver.Owner req = ""%string
  ∧ ∃ resp,
      @httpserver.HandleCreateNamespaceRequest _ (Sim sc) r (mkState t0 [])
      = (resp, mkState t0 [])
      ∧ httpserver.StatusCode resp = httpserver.StatusBadRequest.
Proof.
  intros sc req r.
  split; [reflexivity|]. split; [reflexivity|]. split; [reflexivity|].
  apply (proj1 (HandleCreateNamespaceRequest_validation (H := Sim sc)) r req
           (mkState t0 [])); [reflexivity|reflexivity|].
  right. left. reflexivity.
Defined.

(** [CreateNamespace] called with an empty name and a negative TTL still
    issues its create call. *)
Example CreateNamespace_unvalidated :
  let sc := script None None get_gone ([], None) in
  let r := run sc (λ W H, kube.CreateNamespace "" (-1) "" "") t0 in
  r.1 = None
  ∧ calls r.2
    = [CallCreate context.Background (kube.newNamespace t0 "" (-1) "" "")].
Proof. split; reflexivity. Qed.

(** ** The remaining TTL *)

(** C3, as stated, fails: a namespace created at 10:00:00.5 with a TTL of
    2 hours and listed exactly one hour later has a remaining TTL of 0, not
    of [floor (2 - 1) = 1]: its [expires_at] annotation reads 12:00:00, half
    a second less than two hours after its creation. *)
Lemma ListNamespaces_ttl_floor_counterexample :
  let created := time.Date 2024 1 15 10 0 0 500000000 in
  let N := 2 in
  let m := 1 * time.Hour in
  let sc := mkScript 0 (λ _, None) (λ _, None) get_gone
              (λ _, ([demo created N], None)) in
  let r := run sc (λ W H, kube.ListNamespaces "") (created + m) in
  0 ≤ m < N * time.Hour
  ∧ index (corev1.Annotations (demo created N)) "expires_at"
    = "2024-01-15T12:00:00Z"%string
  ∧ world r.2 = created + m
  ∧ map kube.TTL r.1.1 = [0]
  ∧ (N * time.Hour - m) / time.Hour = 1.
Proof. vm_compute. repeat split; congruence. Qed.

Lemma Format_nonempty t :
  time.representable t → time.Format_RFC3339 t ≠ ""%string.
Proof.
  intros Ht Hempty. pose proof (Parse_Format t Ht) as HP.
  rewrite Hempty, Parse_empty in HP. discriminate.
Qed.

(** The expiry and the remaining hours read off an annotation that was
    written by [CreateNamespace]. *)
Lemma expiry_Format now t :
  time.representable t →
  kube.expiry now (time.Format_RFC3339 t)
  = (time.truncSecond t,
     if 0 <? time.Sub (time.truncSecond t) now
     then time.Hours_int (time.Sub (time.truncSecond t) now) else 0).
Proof.
  intros Ht. unfold kube.expiry.
  destruct (String.eqb_spec (time.Format_RFC3339 t) "") as [Hempty|_].
  - by destruct (Format_nonempty t Ht).
  - by rewrite Parse_Format.
Qed.

(** C3, amended: the [expires_at] annotation of a record created with a
    TTL of [N] hours holds the instant [N] hours after its creation without
    the fraction of its second.  Listed [m] nanoseconds after its
    creation, [m] less than [N] hours, the record has for remaining TTL the
    whole hours from the call to that instant, or one more than these.
    For [N] up to 4096 it is the whole hours themselves: [floor (N - M)]
    or one less, and [floor (N - M)] when the record was created on a whole
    second.  (Above 4096 hours the conversion of the duration through
    [float64] can round what is within a microsecond of a whole hour up to
    it.)  Listed at or after that instant the record has a remaining TTL
    of 0. *)
Theorem ListNamespaces_remaining_ttl {W} `{World W} owner (s : State W)
    l1 ns l2 w' created N :
  0 ≤ N ≤ 2562047 →
  time.representable (created + N * time.Hour) →
  corev1.Annotations ns !! "expires_at"%string
  = Some (time.Format_RFC3339
            (time.Add created (time.Duration_mul N time.Hour))) →
  owner = ""%string ∨ index (corev1.Annotations ns) "owner" = owner →
  List context.Background (world s) = ((l1 ++ ns :: l2, None), w') →
  let expires := time.truncSecond (created + N * time.Hour) in
  let now := Now w' in
  ∃ v, (kube.ListNamespaces owner s).1
       = (kube.views owner now l1 ++ v :: kube.views owner now l2, None)
       ∧ kube.Name v = corev1.Name ns
       ∧ kube.ExpiresAt v = expires
       ∧ (∀ m, now = created + m → 0 ≤ m < N * time.Hour →
            let whole := Z.max 0 ((expires - now) / time.Hour) in
            let floor := (N * time.Hour - m) / time.Hour in
            whole ≤ kube.TTL v ≤ whole + 1
            ∧ floor - 1 ≤ kube.TTL v ≤ floor + 1
            ∧ (N ≤ 4096 →
               kube.TTL v = whole
               ∧ (kube.TTL v = floor ∨ kube.TTL v = floor - 1)
               ∧ (created mod time.Second = 0 → kube.TTL v = floor)))
       ∧ (expires ≤ now → kube.TTL v = 0).
Proof.
  intros HN Hrep Hann Hsel HL expires now.
  exists (kube.view now ns).
  rewrite ListNamespaces_eq, HL. simpl.
  rewrite views_app, views_cons.
  assert (kube.selected owner ns = true) as ->.
  { unfold kube.selected. destruct Hsel as [->| ->]; [done|].
    rewrite String.eqb_refl. apply orb_true_r. }
  split; [done|]. split; [done|].
  unfold index. rewrite Hann. simpl.
  unfold time.Add. rewrite Duration_mul_Hour by lia.
  rewrite expiry_Format by done. simpl. fold expires.
  split; [done|]. split.
  - intros m Hm Hrange. cbv zeta.
    assert (Hexp : created + N * time.Hour - time.Second < expires
                   ≤ created + N * time.Hour).
    { subst expires. unfold time.truncSecond.
      change time.Second with 1000000000. Z.div_mod_to_equations. lia. }
    assert (Hsub : time.Sub expires now = expires - now).
    { apply Sub_exact. unfold minInt64, maxInt64.
      change (2 ^ 63) with 9223372036854775808.
      change time.Hour with 3600000000000 in *.
      change time.Second with 1000000000 in *. lia. }
    rewrite Hsub.
    destruct (Z.ltb_spec 0 (expires - now)) as [Hpos|Hneg].
    + destruct (Hours_int_bounds (expires - now))
        as ([Hlo Hhi] & _ & _ & Hexact).
      { unfold maxInt64. change (2 ^ 63) with 9223372036854775808.
        change time.Hour with 3600000000000 in *. lia. }
      change time.Hour with 3600000000000 in *.
      change time.Second with 1000000000 in *.
      split; [|split].
      * Z.div_mod_to_equations. lia.
      * Z.div_mod_to_equations. lia.
      * intros HN'. rewrite Hexact by lia.
        split; [|split].
        -- Z.div_mod_to_equations. lia.
        -- Z.div_mod_to_equations. lia.
        -- intros Hwhole.
           assert (expires = created + N * 3600000000000) as ->.
           { subst expires. unfold time.truncSecond.
             change time.Second with 1000000000.
             Z.div_mod_to_equations. lia. }
           f_equal. lia.
    + change time.Hour with 3600000000000 in *.
      change time.Second with 1000000000 in *.
      split; [|split].
      * Z.div_mod_to_equations. lia.
      * Z.div_mod_to_equations. lia.
      * intros _. split; [|split].
        -- Z.div_mod_to_equations. lia.
        -- left. Z.div_mod_to_equations. lia.
        -- intros _. Z.div_mod_to_equations. lia.
  - intros Hpast.
    destruct (Z.ltb_spec 0 (time.Sub expires now)) as [Hpos|_]; [|done].
    apply (proj1 (Sub_sign expires now)) in Hpos. lia.
Qed.

Lemma ListNamespaces_remaining_ttl_witness :
  let sc := script None None get_gone ([bare; demo t0 2; garbled], None) in
  (0 ≤ 2 ≤ 2562047
   ∧ time.representable (t0 + 2 * time.Hour)
   ∧ @List _ (Sim sc) context.Background t0
     = (([bare] ++ demo t0 2 :: [garbled], None), t0 + 1000000))
  ∧ ∃ v, (@kube.ListNamespaces _ (Sim sc) "alice" (mkState t0 [])).1
         = ([] ++ v :: [], None)
         ∧ kube.Name v = "demo"%string
         ∧ kube.ExpiresAt v = time.truncSecond (t0 + 2 * time.Hour)
         ∧ kube.TTL v = 1.
Proof.
  intros sc.
  assert (Hrep : time.representable (t0 + 2 * time.Hour))
    by (split; vm_compute; [discriminate|reflexivity]).
  split; [split; [lia|split; [exact Hrep|reflexivity]]|].
  destruct (ListNamespaces_remaining_ttl (H := Sim sc) "alice"
              (mkState t0 []) [bare] (demo t0 2) [garbled]
              (t0 + 1000000) t0 2)
    as (v & Hres & Hname & Hexp & Httl & _);
    [lia|exact Hrep|reflexivity|right; reflexivity|reflexivity|].
  exists v. split; [exact Hres|]. split; [exact Hname|].
  split; [exact Hexp|].
  destruct (Httl 1000000) as (_ & _ & Hsmall);
    [reflexivity|vm_compute; split; [discriminate|reflexivity]|].
  destruct Hsmall as (Hmax & _ & _); [lia|].
  rewrite Hmax. vm_compute. reflexivity.
Defined.

(** * Further properties of the code *)

(** ** Listing *)

Lemma Sub_range t u : minInt64 ≤ time.Sub t u ≤ maxInt64.
Proof.
  unfold time.Sub, maxInt64, minInt64.
  change (2 ^ 63) with 9223372036854775808.
  destruct (Z.ltb_spec (9223372036854775808 - 1) (t - u)); [lia|].
  destruct (Z.ltb_spec (t - u) (- (9223372036854775808))); lia.
Qed.

Lemma expiry_bounds now str : 0 ≤ (kube.expiry now str).2 ≤ 2562047.
Proof.
  unfold kube.expiry. destruct (String.eqb str ""); [simpl; lia|].
  destruct (time.Parse_RFC3339 str) as [expiresAt [e|]]; simpl; [lia|].
  destruct (Z.ltb_spec 0 (time.Sub expiresAt now)) as [Hpos|_]; [|lia].
  pose proof (Sub_range expiresAt now) as Hr.
  destruct (Hours_int_bounds (time.Sub expiresAt now)) as ([Hlo _] & Hhi & _);
    [lia|].
  split; [|done]. etrans; [|exact Hlo]. apply Z.div_pos; [lia|done].
Qed.

(** X1: the remaining TTL of a view is never negative and never above
    2562047 hours (the longest [Duration]), whatever the annotations of
    the records and whatever the clock. *)
Theorem ListNamespaces_ttl_bounds {W} `{World W} owner (s : State W) :
  Forall (λ v, 0 ≤ kube.TTL v ≤ 2562047) (kube.ListNamespaces owner s).1.1.
Proof.
  rewrite ListNamespaces_eq. simpl.
  destruct (List context.Background (world s)) as [[items [e|]] w']; simpl;
    [by apply Forall_nil|].
  unfold kube.views. apply Forall_forall. intros v Hv.
  apply list_elem_of_In, in_map_iff in Hv as (ns & <- & _).
  apply expiry_bounds.
Qed.

Lemma views_names owner now items :
  map kube.Name (kube.views owner now items)
  `sublist_of` map corev1.Name items.
Proof.
  unfold kube.views.
  induction items as [|ns items IH]; simpl; [constructor|].
  destruct (kube.selected owner ns); simpl.
  - by apply sublist_skip.
  - by apply sublist_cons.
Qed.

(** X2: the views come in the order of the clientset's reply: their
    names are the names of the reply with some of them left out, never
    reordered and never repeated more often than in the reply. *)
Theorem ListNamespaces_order {W} `{World W} owner (s : State W) :
  map kube.Name (kube.ListNamespaces owner s).1.1
  `sublist_of` map corev1.Name (List context.Background (world s)).1.1.
Proof.
  rewrite ListNamespaces_eq. simpl.
  destruct (List context.Background (world s)) as [[items [e|]] w']; simpl.
  - apply sublist_nil_l.
  - apply views_names.
Qed.

(** X3: a listing reads and nothing else: whether it succeeds or fails,
    and however many records come back, [ListNamespaces] issues the one
    list call, with the background context, and leaves the world as that
    call left it. *)
Theorem ListNamespaces_effects {W} `{World W} owner (s : State W) :
  (kube.ListNamespaces owner s).2
  = mkState (List context.Background (world s)).2
            (calls s ++ [CallList context.Background]).
Proof. by rewrite ListNamespaces_eq. Qed.

(** X4: a namespace that has expired is still listed: a record whose
    [expires_at] is an instant not after the clock, and that passes the
    owner filter, has its view in the result, with that instant as
    [ExpiresAt] and a TTL of 0. *)
Theorem ListNamespaces_expired {W} `{World W} owner (s : State W)
    l1 ns l2 w' expiresAt :
  time.Parse_RFC3339 (index (corev1.Annotations ns) "expires_at")
  = (expiresAt, None) →
  expiresAt ≤ Now w' →
  owner = ""%string ∨ index (corev1.Annotations ns) "owner" = owner →
  List context.Background (world s) = ((l1 ++ ns :: l2, None), w') →
  ∃ v, (kube.ListNamespaces owner s).1
       = (kube.views owner (Now w') l1 ++ v :: kube.views owner (Now w') l2,
          None)
       ∧ kube.Name v = corev1.Name ns
       ∧ kube.ExpiresAt v = expiresAt
       ∧ kube.TTL v = 0.
Proof.
  intros HP Hpast Hsel HL.
  exists (kube.view (Now w') ns).
  rewrite ListNamespaces_eq, HL. simpl.
  rewrite views_app, views_cons.
  assert (kube.selected owner ns = true) as ->.
  { unfold kube.selected. destruct Hsel as [->| ->]; [done|].
    rewrite String.eqb_refl. apply orb_true_r. }
  split; [done|]. split; [done|].
  unfold kube.expiry. rewrite HP.
  destruct (String.eqb_spec (index (corev1.Annotations ns) "expires_at") "")
    as [Hempty|_].
  { rewrite Hempty, Parse_empty in HP. discriminate. }
  simpl. split; [done|].
  destruct (Z.ltb_spec 0 (time.Sub expiresAt (Now w'))) as [Hpos|_]; [|done].
  apply (proj1 (Sub_sign expiresAt (Now w'))) in Hpos. lia.
Qed.

Lemma ListNamespaces_expired_witness :
  let sc := script None None get_gone ([bare; demo t0 2], None) in
  let start := t0 + 3 * time.Hour in
  let expiresAt := time.Date 2024 1 15 12 0 0 0 in
  (time.Parse_RFC3339 (index (corev1.Annotations (demo t0 2)) "expires_at")
   = (expiresAt, None)
   ∧ expiresAt ≤ start + 1000000)
  ∧ ∃ v, (@kube.ListNamespaces _ (Sim sc) "alice" (mkState start [])).1
         = ([] ++ v :: [], None)
         ∧ kube.Name v = "demo"%string
         ∧ kube.ExpiresAt v = expiresAt
         ∧ kube.TTL v = 0.
Proof.
  intros sc start expiresAt.
  assert (HP : time.Parse_RFC3339
                 (index (corev1.Annotations (demo t0 2)) "expires_at")
               = (expiresAt, None)) by (vm_compute; reflexivity).
  assert (Hpast : expiresAt ≤ start + 1000000) by (vm_compute; discriminate).
  split; [by split|].
  apply (ListNamespaces_expired (H := Sim sc) "alice" (mkState start [])
           [bare] (demo t0 2) [] (start + 1000000) expiresAt HP Hpast).
  - right. reflexivity.
  - reflexivity.
Defined.

(** X5: what was created is what is listed.  If the reply to a list call
    holds a record with the name and the annotations that
    [CreateNamespace name ttlHours owner team] sent, its view carries
    [name], [owner] and [team]; it is in the result when the filter is
    empty or is [owner], and it is left out for every other filter. *)
Theorem CreateNamespace_then_ListNamespaces {W} `{World W}
    name ttlHours owner team (s0 s : State W) ctx0 sent ns l1 l2 w' f :
  last (calls (kube.CreateNamespace name ttlHours owner team s0).2)
  = Some (CallCreate ctx0 sent) →
  corev1.Name ns = corev1.Name sent →
  corev1.Annotations ns = corev1.Annotations sent →
  List context.Background (world s) = ((l1 ++ ns :: l2, None), w') →
  (f = ""%string ∨ f = owner →
   ∃ v, (kube.ListNamespaces f s).1
        = (kube.views f (Now w') l1 ++ v :: kube.views f (Now w') l2, None)
        ∧ kube.Name v = name ∧ kube.Owner v = owner ∧ kube.Team v = team
        ∧ kube.CreatedAt v = corev1.CreationTimestamp ns)
  ∧ (f ≠ ""%string → f ≠ owner →
     (kube.ListNamespaces f s).1
     = (kube.views f (Now w') l1 ++ kube.views f (Now w') l2, None)).
Proof.
  intros Hlast Hname Hann HL.
  rewrite CreateNamespace_eq in Hlast. simpl in Hlast.
  rewrite last_snoc in Hlast. injection Hlast as _ <-.
  assert (Hown : index (corev1.Annotations ns) "owner" = owner)
    by (rewrite Hann; unfold index; by simplify_map_eq).
  assert (Hteam : index (corev1.Annotations ns) "team" = team)
    by (rewrite Hann; unfold index; by simplify_map_eq).
  rewrite ListNamespaces_eq, HL. simpl.
  rewrite views_app, views_cons. unfold kube.selected. rewrite Hown.
  split.
  - intros Hf. exists (kube.view (Now w') ns).
    assert ((f =? "")%string || (owner =? f)%string = true) as ->.
    { destruct Hf as [->| ->]; [done|].
      rewrite String.eqb_refl. apply orb_true_r. }
    simpl. by rewrite Hown, Hteam, Hname.
  - intros Hf1 Hf2.
    destruct (String.eqb_spec f ""); [done|].
    destruct (String.eqb_spec owner f); [congruence|done].
Qed.

Lemma CreateNamespace_then_ListNamespaces_witness :
  let sc := script None None get_gone ([bare; demo t0 2; garbled], None) in
  let sent := kube.newNamespace t0 "demo" 2 "alice" "infra" in
  (last (calls (@kube.CreateNamespace _ (Sim sc) "demo" 2 "alice" "infra"
                  (mkState t0 [])).2)
   = Some (CallCreate context.Background sent)
   ∧ corev1.Name (demo t0 2) = corev1.Name sent
   ∧ corev1.Annotations (demo t0 2) = corev1.Annotations sent)
  ∧ (∃ v, (@kube.ListNamespaces _ (Sim sc) "alice" (mkState t0 [])).1
          = ([] ++ v :: [], None)
          ∧ kube.Name v = "demo"%string ∧ kube.Owner v = "alice"%string
          ∧ kube.Team v = "infra"%string
          ∧ kube.CreatedAt v = corev1.CreationTimestamp (demo t0 2))
  ∧ (@kube.ListNamespaces _ (Sim sc) "bob" (mkState t0 [])).1
    = ([] ++ [kube.view (t0 + 1000000) garbled], None).
Proof.
  intros sc sent.
  assert (Hsent : last (calls (@kube.CreateNamespace _ (Sim sc) "demo" 2
                                 "alice" "infra" (mkState t0 [])).2)
                  = Some (CallCreate context.Background sent))
    by reflexivity.
  split; [split; [exact Hsent|split; reflexivity]|].
  split.
  - apply (proj1 (CreateNamespace_then_ListNamespaces (H := Sim sc)
                    "demo" 2 "alice" "infra" (mkState t0 []) (mkState t0 [])
                    context.Background sent (demo t0 2) [bare] [garbled]
                    (t0 + 1000000) "alice" Hsent eq_refl eq_refl eq_refl)).
    right. reflexivity.
  - apply (proj2 (CreateNamespace_then_ListNamespaces (H := Sim sc)
                    "demo" 2 "alice" "infra" (mkState t0 []) (mkState t0 [])
                    context.Background sent (demo t0 2) [bare] [garbled]
                    (t0 + 1000000) "bob" Hsent eq_refl eq_refl eq_refl));
      discriminate.
Defined.

(** ** Deleting *)

Section DeleteMore.
Context {W : Type} `{World W}.

(** After a delete call that succeeded [DeleteNamespace] is the poll
    loop, under the context made when that call returned. *)
Lemma DeleteNamespace_poll fuel name (s : State W) :
  (Delete context.Background name (world s)).1 = None →
  kube.DeleteNamespace fuel name s
  = kube.poll fuel
      (context.WithTimeout context.Background (30 * time.Second)
         (Now (Delete context.Background name (world s)).2))
      name
      (mkState (Delete context.Background name (world s)).2
         (calls s ++ [CallDelete context.Background name])).
Proof.
  intros HD. unfold kube.DeleteNamespace, bind, Namespaces_Delete, perform.
  destruct (Delete context.Background name (world s)) as [err w1].
  simpl in HD. subst err. done.
Qed.

Lemma DeleteNamespace_failed fuel name (s : State W) e :
  (Delete context.Background name (world s)).1 = Some e →
  kube.DeleteNamespace fuel name s
  = (Returned (Some e),
     mkState (Delete context.Background name (world s)).2
       (calls s ++ [CallDelete context.Background name])).
Proof.
  intros HD. unfold kube.DeleteNamespace, bind, Namespaces_Delete, perform.
  destruct (Delete context.Background name (world s)) as [err w1].
  simpl in HD. subst err. done.
Qed.

(** The loop logs [Get]s for its own context and name, one a turn. *)
Lemma poll_calls ctx name : ∀ fuel (s : State W),
  ∃ k, (k ≤ fuel)%nat
       ∧ calls (kube.poll fuel ctx name s).2
         = calls s ++ replicate k (CallGet ctx name).
Proof.
  induction fuel as [|fuel IH]; intros s.
  - exists 0%nat. simpl. by rewrite app_nil_r.
  - rewrite poll_step. cbv zeta.
    destruct ((Get ctx name (world s)).1.2);
      [exists 1%nat; split; [lia|done]|].
    destruct (context.Done ctx _); [exists 1%nat; split; [lia|done]|].
    destruct (IH (mkState (Sleep (500 * time.Millisecond)
                             (Get ctx name (world s)).2)
                    (calls s ++ [CallGet ctx name]))) as (k & Hk & Hcalls).
    exists (S k). split; [lia|]. simpl in *.
    by rewrite Hcalls, <- app_assoc.
Qed.

(** The only error the loop returns is the context's, and it returns it
    with the timer gone off. *)
Lemma poll_error ctx name : ∀ fuel (s : State W) e s',
  kube.poll fuel ctx name s = (Returned (Some e), s') →
  e = DeadlineExceeded ∧ context.Done ctx (Now (world s')) = true.
Proof.
  induction fuel as [|fuel IH]; intros s e s' Hp; [discriminate|].
  rewrite poll_step in Hp. cbv zeta in Hp.
  destruct ((Get ctx name (world s)).1.2); [discriminate|].
  destruct (context.Done ctx (Now (Get ctx name (world s)).2)) eqn:Hdone;
    [|by eapply IH].
  unfold context.Err in Hp. rewrite Hdone in Hp.
  injection Hp as <- <-. done.
Qed.

(** With the clock moving forward, 61 turns are enough for the loop
    started when its context was made. *)
Lemma DeleteNamespace_total `{!Monotone W} name (s : State W) :
  ∃ r s', kube.DeleteNamespace 61 name s = (Returned r, s')
          ∧ ∀ fuel, (61 ≤ fuel)%nat →
              kube.DeleteNamespace fuel name s = (Returned r, s').
Proof.
  destruct ((Delete context.Background name (world s)).1) as [e|] eqn:HD.
  - eexists _, _. split; [by apply DeleteNamespace_failed|].
    intros fuel _. by apply DeleteNamespace_failed.
  - set (ctx := context.WithTimeout context.Background (30 * time.Second)
                  (Now (Delete context.Background name (world s)).2)).
    set (s1 := mkState (Delete context.Background name (world s)).2
                 (calls s ++ [CallDelete context.Background name])).
    destruct (poll_returns ctx name
                (Now (Delete context.Background name (world s)).2
                 + 30 * time.Second) eq_refl 60 s1) as (r & s' & Hp).
    { subst s1. simpl. change (500 * time.Millisecond) with 500000000.
      change (30 * time.Second) with 30000000000. lia. }
    exists r, s'. split.
    + by rewrite DeleteNamespace_poll.
    + intros fuel Hfuel. rewrite DeleteNamespace_poll by done.
      by apply (poll_fuel_mono ctx name 61 s1).
Qed.

(** The loop started in [w1] gets to every world of [polls]. *)
Lemma poll_reaches ctx name w1 w :
  kube.polls ctx name w1 w →
  ∃ n cs, ∀ fuel log,
    kube.poll (n + fuel) ctx name (mkState w1 log)
    = kube.poll fuel ctx name (mkState w (log ++ cs)).
Proof.
  induction 1 as [|w Hw (n & cs & IH) Hget Hdone].
  - exists 0%nat, []. intros fuel log. by rewrite app_nil_r.
  - exists (S n), (cs ++ [CallGet ctx name]). intros fuel log.
    replace (S n + fuel)%nat with (n + S fuel)%nat by lia.
    rewrite IH, poll_step. cbv zeta. simpl.
    rewrite Hget, Hdone. by rewrite <- app_assoc.
Qed.

End DeleteMore.

(** X6: [DeleteNamespace] issues the delete call and then only [Get]s,
    all for the same name and under the one context whose deadline is 30
    seconds after the delete call returned; it issues no [Get] at all
    when the delete call failed, and never more than one a turn. *)
Theorem DeleteNamespace_calls {W} `{World W} fuel name (s : State W) :
  let w1 := (Delete context.Background name (world s)).2 in
  let ctx :=
    context.WithTimeout context.Background (30 * time.Second) (Now w1) in
  ∃ k, (k ≤ fuel)%nat
       ∧ calls (kube.DeleteNamespace fuel name s).2
         = calls s ++ CallDelete context.Background name
                     :: replicate k (CallGet ctx name)
       ∧ ((Delete context.Background name (world s)).1 ≠ None → k = 0%nat).
Proof.
  intros w1 ctx.
  destruct ((Delete context.Background name (world s)).1) as [e|] eqn:HD.
  - exists 0%nat. rewrite (DeleteNamespace_failed fuel name s e HD).
    split; [lia|]. split; done.
  - rewrite DeleteNamespace_poll by done. fold w1 ctx.
    destruct (poll_calls ctx name fuel
                (mkState w1 (calls s ++ [CallDelete context.Background name])))
      as (k & Hk & ->).
    exists k. split; [done|]. simpl. rewrite <- app_assoc. split; done.
Qed.

Lemma DeleteNamespace_calls_witness :
  let sc := script None (Some (TransportError "connection refused"))
              (get_found (demo t0 2)) ([], None) in
  (@Delete _ (Sim sc) context.Background "demo" t0).1 ≠ None
  ∧ calls (@kube.DeleteNamespace _ (Sim sc) 61 "demo" (mkState t0 [])).2
    = [] ++ [CallDelete context.Background "demo"].
Proof.
  intros sc.
  assert (Hfail : (@Delete _ (Sim sc) context.Background "demo" t0).1 ≠ None)
    by discriminate.
  split; [exact Hfail|].
  destruct (DeleteNamespace_calls (H := Sim sc) 61 "demo" (mkState t0 []))
    as (k & _ & Hcalls & Hzero).
  rewrite Hcalls, (Hzero Hfail). reflexivity.
Defined.

(** X7: [DeleteNamespace] returns, whatever the clientset replies: with a
    clock that does not run backwards during a [Get] and a [time.Sleep]
    that pauses as long as asked, 61 turns of the loop always suffice, and
    no more than 61 [Get]s are issued. *)
Theorem DeleteNamespace_returns {W} `{World W} name (s : State W) :
  Monotone W →
  ∀ fuel, (61 ≤ fuel)%nat →
    ∃ r s' k,
      kube.DeleteNamespace fuel name s = (Returned r, s')
      ∧ (k ≤ 61)%nat
      ∧ calls s'
        = calls s ++ CallDelete context.Background name
            :: replicate k
                 (CallGet
                    (context.WithTimeout context.Background
                       (30 * time.Second)
                       (Now (Delete context.Background name (world s)).2))
                    name).
Proof.
  intros Hmono fuel Hfuel.
  destruct (DeleteNamespace_total name s) as (r & s' & H61 & Hall).
  destruct (poll_calls
              (context.WithTimeout context.Background (30 * time.Second)
                 (Now (Delete context.Background name (world s)).2))
              name 61
              (mkState (Delete context.Background name (world s)).2
                 (calls s ++ [CallDelete context.Background name])))
    as (k & Hk & Hcalls).
  destruct ((Delete context.Background name (world s)).1) as [e|] eqn:HD.
  - exists r, s', 0%nat. split; [by apply Hall|]. split; [lia|].
    rewrite (DeleteNamespace_failed 61 name s e HD) in H61.
    by injection H61 as _ <-.
  - exists r, s', k. split; [by apply Hall|]. split; [done|].
    rewrite DeleteNamespace_poll in H61 by done.
    rewrite H61 in Hcalls. simpl in Hcalls.
    by rewrite Hcalls, <- app_assoc.
Qed.

Lemma DeleteNamespace_returns_witness :
  let sc := script None None get_forbidden ([], None) in
  (61 ≤ 61)%nat
  ∧ ∃ r s' k,
      @kube.DeleteNamespace _ (Sim sc) 61 "demo" (mkState t0 [])
      = (Returned r, s')
      ∧ (k ≤ 61)%nat
      ∧ calls s'
        = [] ++ CallDelete context.Background "demo"
            :: replicate k
                 (CallGet
                    (context.WithTimeout context.Background
                       (30 * time.Second) (t0 + 1000000))
                    "demo").
Proof.
  intros sc. split; [lia|].
  apply (DeleteNamespace_returns (H := Sim sc) "demo" (mkState t0 [])
           (Sim_Monotone sc) 61).
  lia.
Defined.

(** X8: [DeleteNamespace] fails in two ways only: with the error of the
    delete call, or, after a delete call that succeeded, with
    [context.DeadlineExceeded], and then not before 30 seconds have
    passed since the delete call returned.  No error of a [Get] is ever
    returned. *)
Theorem DeleteNamespace_errors {W} `{World W} fuel name (s : State W) e s' :
  kube.DeleteNamespace fuel name s = (Returned (Some e), s') →
  (Delete context.Background name (world s)).1 = Some e
  ∨ ((Delete context.Background name (world s)).1 = None
     ∧ e = DeadlineExceeded
     ∧ Now (Delete context.Background name (world s)).2 + 30 * time.Second
       ≤ Now (world s')).
Proof.
  intros Hdel.
  destruct ((Delete context.Background name (world s)).1) as [e0|] eqn:HD.
  - left. rewrite (DeleteNamespace_failed fuel name s e0 HD) in Hdel.
    by injection Hdel as ->.
  - right. rewrite DeleteNamespace_poll in Hdel by done.
    apply poll_error in Hdel as [-> Hdone].
    split; [done|]. split; [done|].
    unfold context.Done in Hdone. simpl in Hdone.
    by apply Z.leb_le in Hdone.
Qed.

Lemma DeleteNamespace_errors_witness :
  let kept := script None None (get_found (demo t0 2)) ([], None) in
  let r := @kube.DeleteNamespace _ (Sim kept) 61 "demo" (mkState t0 []) in
  r.1 = Returned (Some DeadlineExceeded)
  ∧ (@Delete _ (Sim kept) context.Background "demo" t0).1 = None
  ∧ t0 + 1000000 + 30 * time.Second ≤ world r.2.
Proof.
  intros kept r.
  assert (Hr : r.1 = Returned (Some DeadlineExceeded))
    by (vm_compute; reflexivity).
  split; [exact Hr|].
  destruct r as [res s'] eqn:Er. simpl in Hr. subst res.
  destruct (DeleteNamespace_errors (H := Sim kept) 61 "demo" (mkState t0 [])
              DeadlineExceeded s' Er) as [Hsub|(Hok & _ & Hlate)].
  - discriminate Hsub.
  - split; [exact Hok|exact Hlate].
Defined.

(** X9: with a client that honours the context, one whose [Get] fails
    when it returns with the deadline passed, the timeout is never
    reported: once the delete call has succeeded [DeleteNamespace]
    returns nil, also when every [Get] before the deadline found the
    namespace. *)
Theorem DeleteNamespace_honoured_context {W} `{World W} name (s : State W) :
  Monotone W →
  (∀ ctx w, context.Done ctx (Now (Get ctx name w).2) = true →
            (Get ctx name w).1.2 ≠ None) →
  (Delete context.Background name (world s)).1 = None →
  ∀ fuel, (61 ≤ fuel)%nat →
    (kube.DeleteNamespace fuel name s).1 = Returned None.
Proof.
  intros Hmono Hhon HD fuel Hfuel.
  destruct (DeleteNamespace_total name s) as (r & s' & _ & Hall).
  rewrite (Hall fuel Hfuel). simpl. f_equal.
  specialize (Hall fuel Hfuel).
  rewrite DeleteNamespace_poll in Hall by done.
  exact (poll_honoured_deadline _ name (Hhon _) _ _ _ _ Hall).
Qed.

Lemma DeleteNamespace_honoured_context_witness :
  let sc := script None None (get_until_deadline (demo t0 2))
              ([demo t0 2], None) in
  (∀ ctx w, context.Done ctx (@Now _ (Sim sc) (@Get _ (Sim sc) ctx "demo" w).2)
            = true →
            (@Get _ (Sim sc) ctx "demo" w).1.2 ≠ None)
  ∧ (@Delete _ (Sim sc) context.Background "demo" t0).1 = None
  ∧ (@kube.DeleteNamespace _ (Sim sc) 61 "demo" (mkState t0 [])).1
    = Returned None.
Proof.
  intros sc.
  assert (Hhon : ∀ ctx w,
            context.Done ctx (@Now _ (Sim sc) (@Get _ (Sim sc) ctx "demo" w).2)
            = true →
            (@Get _ (Sim sc) ctx "demo" w).1.2 ≠ None).
  { intros ctx w Hdone. simpl in *. unfold get_until_deadline.
    rewrite Hdone. discriminate. }
  split; [exact Hhon|]. split; [reflexivity|].
  apply (DeleteNamespace_honoured_context (H := Sim sc) "demo" (mkState t0 [])
           (Sim_Monotone sc) Hhon eq_refl 61).
  lia.
Defined.

(** X10: the deletion is confirmed at whichever poll first fails.  If the
    loop gets to a world, every [Get] before having found the namespace
    with the timer still running, and the [Get] issued there fails, then
    [DeleteNamespace] returns nil, in the world that [Get] left, for every
    bound on the turns above some number. *)
Theorem DeleteNamespace_confirmed_later {W} `{World W} name (s : State W)
    w e :
  (Delete context.Background name (world s)).1 = None →
  let w1 := (Delete context.Background name (world s)).2 in
  let ctx :=
    context.WithTimeout context.Background (30 * time.Second) (Now w1) in
  kube.polls ctx name w1 w →
  (Get ctx name w).1.2 = Some e →
  ∃ n, ∀ fuel, (n ≤ fuel)%nat →
    (kube.DeleteNamespace fuel name s).1 = Returned None
    ∧ world (kube.DeleteNamespace fuel name s).2 = (Get ctx name w).2.
Proof.
  intros HD w1 ctx Hpolls Hget.
  destruct (poll_reaches ctx name w1 w Hpolls) as (n & cs & Hreach).
  exists (S n). intros fuel Hfuel.
  rewrite DeleteNamespace_poll by done. fold w1 ctx.
  replace fuel with (n + S (fuel - S n))%nat by lia.
  rewrite Hreach, poll_step. cbv zeta. simpl. by rewrite Hget.
Qed.

Lemma DeleteNamespace_confirmed_later_witness :
  let w1 := t0 + 1000000 in
  let sc := script None None (get_found_until (w1 + 2000000) (demo t0 2))
              ([], None) in
  let ctx := context.WithTimeout context.Background (30 * time.Second) w1 in
  let w := @Sleep _ (Sim sc) (500 * time.Millisecond)
             (@Get _ (Sim sc) ctx "demo" w1).2 in
  ((@Delete _ (Sim sc) context.Background "demo" t0).1 = None
   ∧ @kube.polls _ (Sim sc) ctx "demo" w1 w
   ∧ (@Get _ (Sim sc) ctx "demo" w).1.2 = Some (StatusNotFound "demo"))
  ∧ ∃ n, ∀ fuel, (n ≤ fuel)%nat →
      (@kube.DeleteNamespace _ (Sim sc) fuel "demo" (mkState t0 [])).1
      = Returned None
      ∧ world (@kube.DeleteNamespace _ (Sim sc) fuel "demo" (mkState t0 [])).2
        = (@Get _ (Sim sc) ctx "demo" w).2.
Proof.
  intros w1 sc ctx w.
  assert (Hpolls : @kube.polls _ (Sim sc) ctx "demo" w1 w).
  { apply (@kube.polls_next _ (Sim sc) ctx "demo" w1 w1).
    - apply kube.polls_first.
    - vm_compute. reflexivity.
    - vm_compute. reflexivity. }
  assert (Hget : (@Get _ (Sim sc) ctx "demo" w).1.2
                 = Some (StatusNotFound "demo"))
    by (vm_compute; reflexivity).
  split; [split; [reflexivity|split; [exact Hpolls|exact Hget]]|].
  exact (DeleteNamespace_confirmed_later (H := Sim sc) "demo" (mkState t0 [])
           w (StatusNotFound "demo") eq_refl Hpolls Hget).
Defined.

(** ** Creating *)

(** X11: whatever its arguments, [CreateNamespace] issues one call, a
    create under the background context, for a namespace with the given
    name and the annotations [owner], [team] and [expires_at] and no
    other, and returns that call's error as it is.  For a TTL of at most
    2562047 hours in absolute value [expires_at] is the instant that many
    hours from the clock's reading, in the RFC 3339 layout: in the past
    when the TTL is negative. *)
Theorem CreateNamespace_request {W} `{World W} name ttlHours owner team
    (s : State W) :
  ∃ namespace,
    calls (kube.CreateNamespace name ttlHours owner team s).2
    = calls s ++ [CallCreate context.Background namespace]
    ∧ (kube.CreateNamespace name ttlHours owner team s).1
      = (Create context.Background namespace (world s)).1.2
    ∧ corev1.Name namespace = name
    ∧ dom (corev1.Annotations namespace)
      = ({[ "owner"; "team"; "expires_at" ]} : gset string)
    ∧ corev1.Annotations namespace !! "owner"%string = Some owner
    ∧ corev1.Annotations namespace !! "team"%string = Some team
    ∧ (-2562047 ≤ ttlHours ≤ 2562047 →
       corev1.Annotations namespace !! "expires_at"%string
       = Some (time.Format_RFC3339 (Now (world s) + ttlHours * time.Hour))).
Proof.
  exists (kube.newNamespace (Now (world s)) name ttlHours owner team).
  rewrite CreateNamespace_eq. simpl.
  split; [done|]. split; [done|]. split; [done|].
  split; [rewrite !dom_insert_L, dom_singleton_L; set_solver|].
  split; [by simplify_map_eq|]. split; [by simplify_map_eq|].
  intros Hr. simplify_map_eq.
  unfold time.Add. by rewrite Duration_mul_Hour.
Qed.

Lemma CreateNamespace_request_witness :
  let sc := script (Some (StatusAlreadyExists "demo")) None get_gone
              ([], None) in
  -2562047 ≤ -3 ≤ 2562047
  ∧ ∃ namespace,
      calls (@kube.CreateNamespace _ (Sim sc) "demo" (-3) "alice" "infra"
               (mkState t0 [])).2
      = [] ++ [CallCreate context.Background namespace]
      ∧ (@kube.CreateNamespace _ (Sim sc) "demo" (-3) "alice" "infra"
           (mkState t0 [])).1
        = Some (StatusAlreadyExists "demo")
      ∧ corev1.Annotations namespace !! "expires_at"%string
        = Some "2024-01-15T07:00:00Z"%string.
Proof.
  intros sc. split; [lia|].
  destruct (CreateNamespace_request (H := Sim sc) "demo" (-3) "alice" "infra"
              (mkState t0 []))
    as (namespace & Hcalls & _ & _ & _ & _ & _ & Hexp).
  exists namespace. split; [exact Hcalls|]. split; [reflexivity|].
  rewrite Hexp by lia. vm_compute. reflexivity.
Defined.

(** ** The handlers *)

(** X12: [HandleCreateNamespaceRequest] touches the cluster exactly when
    the request is a POST whose body decodes to a non-empty name, owner
    and team and a positive TTL: then it issues one call, the create for
    those four values; in every other case it issues none. *)
Theorem HandleCreateNamespaceRequest_effects {W} `{World W} r
    (s : State W) :
  let req := (httpserver.Decode r).1 in
  let valid :=
    httpserver.Method r = httpserver.MethodPost
    ∧ (httpserver.Decode r).2 = None
    ∧ httpserver.Name req ≠ ""%string ∧ httpserver.Owner req ≠ ""%string
    ∧ httpserver.Team req ≠ ""%string ∧ 0 < httpserver.TTL req in
  (valid →
   calls (httpserver.HandleCreateNamespaceRequest r s).2
   = calls s ++ [CallCreate context.Background
                   (kube.newNamespace (Now (world s)) (httpserver.Name req)
                      (httpserver.TTL req) (httpserver.Owner req)
                      (httpserver.Team req))])
  ∧ (¬ valid → (httpserver.HandleCreateNamespaceRequest r s).2 = s).
Proof.
  intros req valid. subst valid req.
  unfold httpserver.HandleCreateNamespaceRequest.
  destruct (httpserver.Decode r) as [req err]. simpl.
  destruct (String.eqb_spec (httpserver.Method r) httpserver.MethodPost);
    simpl; [|tauto].
  destruct err as [failure|]; [split; [intros (_ & ? & _); done|done]|].
  destruct (String.eqb_spec (httpserver.Name req) ""); [tauto|].
  destruct (String.eqb_spec (httpserver.Owner req) ""); [tauto|].
  destruct (String.eqb_spec (httpserver.Team req) ""); [tauto|].
  destruct (Z.leb_spec (httpserver.TTL req) 0); [split; [lia|done]|].
  split; [|tauto]. intros _.
  unfold bind. rewrite CreateNamespace_eq.
  by destruct ((Create _ _ _).1.2).
Qed.

Lemma HandleCreateNamespaceRequest_effects_witness :
  let sc := script None None get_gone ([], None) in
  let good := httpserver.mkRequest "POST"
                (httpserver.mkCreateNamespaceRequest "demo" 2 "alice" "infra",
                 None) in
  let bad := httpserver.mkRequest "PUT"
               (httpserver.mkCreateNamespaceRequest "demo" 2 "alice" "infra",
                None) in
  calls (@httpserver.HandleCreateNamespaceRequest _ (Sim sc) good
           (mkState t0 [])).2
  = [] ++ [CallCreate context.Background
             (kube.newNamespace t0 "demo" 2 "alice" "infra")]
  ∧ (@httpserver.HandleCreateNamespaceRequest _ (Sim sc) bad
       (mkState t0 [])).2
    = mkState t0 [].
Proof.
  intros sc good bad. split.
  - apply (proj1 (HandleCreateNamespaceRequest_effects (H := Sim sc) good
                    (mkState t0 []))).
    repeat split; (discriminate || reflexivity).
  - apply (proj2 (HandleCreateNamespaceRequest_effects (H := Sim sc) bad
                    (mkState t0 []))).
    intros (HM & _). discriminate HM.
Defined.

(** X13: for a request that passes the checks, the answer follows the
    create call: 201 with a JSON body that names the namespace when the
    call succeeded; 500 with the error's message as body when it failed,
    whatever the failure (a name that is taken is answered 500 like any
    other). *)
Theorem HandleCreateNamespaceRequest_outcome {W} `{World W} r req
    (s : State W) :
  httpserver.Method r = httpserver.MethodPost →
  httpserver.Decode r = (req, None) →
  httpserver.Name req ≠ ""%string → httpserver.Owner req ≠ ""%string →
  httpserver.Team req ≠ ""%string → 0 < httpserver.TTL req →
  let err :=
    (Create context.Background
       (kube.newNamespace (Now (world s)) (httpserver.Name req)
          (httpserver.TTL req) (httpserver.Owner req) (httpserver.Team req))
       (world s)).1.2 in
  (httpserver.HandleCreateNamespaceRequest r s).1
  = match err with
    | None =>
        httpserver.mkResponse httpserver.StatusCreated
          {[ "Content-Type" := "application/json" ]}
          (httpserver.JSON
             {[ "message" := "Namespace created successfully";
                "name" := httpserver.Name req ]})
    | Some e =>
        httpserver.mkResponse httpserver.StatusInternalServerError ∅
          (httpserver.Bytes (Error e))
    end.
Proof.
  intros HM HD Hn Ho Ht Httl err. subst err.
  unfold httpserver.HandleCreateNamespaceRequest. rewrite HM, HD. simpl.
  destruct (String.eqb_spec (httpserver.Name req) ""); [done|].
  destruct (String.eqb_spec (httpserver.Owner req) ""); [done|].
  destruct (String.eqb_spec (httpserver.Team req) ""); [done|].
  destruct (Z.leb_spec (httpserver.TTL req) 0); [lia|].
  unfold bind. rewrite CreateNamespace_eq.
  by destruct ((Create _ _ _).1.2).
Qed.

Lemma HandleCreateNamespaceRequest_outcome_witness :
  let sc := script (Some (StatusAlreadyExists "namespaces demo already exists"))
              None get_gone ([], None) in
  let req := httpserver.mkCreateNamespaceRequest "demo" 2 "alice" "infra" in
  let r := httpserver.mkRequest "POST" (req, None) in
  (httpserver.Name req ≠ ""%string ∧ httpserver.Owner req ≠ ""%string
   ∧ httpserver.Team req ≠ ""%string ∧ 0 < httpserver.TTL req)
  ∧ (@httpserver.HandleCreateNamespaceRequest _ (Sim sc) r (mkState t0 [])).1
    = httpserver.mkResponse httpserver.StatusInternalServerError ∅
        (httpserver.Bytes "namespaces demo already exists").
Proof.
  intros sc req r.
  split; [repeat split; (discriminate || reflexivity)|].
  rewrite (HandleCreateNamespaceRequest_outcome (H := Sim sc) r req
             (mkState t0 []));
    (reflexivity || discriminate).
Defined.

(** X14: the method is looked at before the body, and the body before
    its fields: a request that is not a POST is answered 405 whatever its
    body, and a POST whose body does not decode is answered 400 with the
    decoder's message, whatever was decoded so far. *)
Theorem HandleCreateNamespaceRequest_precedence {W} `{World W} r
    (s : State W) :
  (httpserver.Method r ≠ httpserver.MethodPost →
   (httpserver.HandleCreateNamespaceRequest r s).1
   = httpserver.mkResponse httpserver.StatusMethodNotAllowed ∅
       (httpserver.Bytes "Method not allowed. Use POST"))
  ∧ (∀ e, httpserver.Method r = httpserver.MethodPost →
          (httpserver.Decode r).2 = Some e →
          (httpserver.HandleCreateNamespaceRequest r s).1
          = httpserver.mkResponse httpserver.StatusBadRequest ∅
              (httpserver.Bytes ("Invalid JSON: " +:+ Error e))).
Proof.
  unfold httpserver.HandleCreateNamespaceRequest. split.
  - intros HM.
    by destruct (String.eqb_spec (httpserver.Method r) httpserver.MethodPost).
  - intros e HM HD. rewrite HM. simpl.
    destruct (httpserver.Decode r) as [req err]. simpl in HD. by subst err.
Qed.

Lemma HandleCreateNamespaceRequest_precedence_witness :
  let sc := script None None get_gone ([], None) in
  let req := httpserver.mkCreateNamespaceRequest "" 0 "" "" in
  let get := httpserver.mkRequest "GET" (req, Some (SyntaxError "EOF")) in
  let post := httpserver.mkRequest "POST" (req, Some (SyntaxError "EOF")) in
  (@httpserver.HandleCreateNamespaceRequest _ (Sim sc) get (mkState t0 [])).1
  = httpserver.mkResponse httpserver.StatusMethodNotAllowed ∅
      (httpserver.Bytes "Method not allowed. Use POST")
  ∧ (@httpserver.HandleCreateNamespaceRequest _ (Sim sc) post
       (mkState t0 [])).1
    = httpserver.mkResponse httpserver.StatusBadRequest ∅
        (httpserver.Bytes ("Invalid JSON: " +:+ Error (SyntaxError "EOF"))).
Proof.
  intros sc req get post. split.
  - apply (proj1 (HandleCreateNamespaceRequest_precedence (H := Sim sc) get
                    (mkState t0 []))).
    discriminate.
  - apply (proj2 (HandleCreateNamespaceRequest_precedence (H := Sim sc) post
                    (mkState t0 [])) (SyntaxError "EOF")); reflexivity.
Defined.

(** X15: [HandleDeleteNamespaceRequest] does not check the name.  For a
    DELETE request whose body decodes, the delete call is issued for the
    decoded name as it is, the empty name included, followed by the polls
    of [DeleteNamespace]; a request with another method or a body that
    does not decode issues no call. *)
Theorem HandleDeleteNamespaceRequest_effects {W} `{World W} fuel r
    (s : State W) :
  let name := handlers.Name (handlers.Decode r).1 in
  let accepted :=
    handlers.Method r = handlers.MethodDelete
    ∧ (handlers.Decode r).2 = None in
  (accepted →
   (handlers.HandleDeleteNamespaceRequest fuel r s).2
   = (kube.DeleteNamespace fuel name s).2
   ∧ ∃ k, calls (handlers.HandleDeleteNamespaceRequest fuel r s).2
          = calls s ++ CallDelete context.Background name
              :: replicate k
                   (CallGet
                      (context.WithTimeout context.Background
                         (30 * time.Second)
                         (Now (Delete context.Background name (world s)).2))
                      name))
  ∧ (¬ accepted → (handlers.HandleDeleteNamespaceRequest fuel r s).2 = s).
Proof.
  intros name accepted. subst name accepted.
  unfold handlers.HandleDeleteNamespaceRequest.
  destruct (handlers.Decode r) as [req err]. simpl.
  destruct (String.eqb_spec (handlers.Method r) handlers.MethodDelete);
    simpl; [|tauto].
  destruct err as [failure|]; [split; [intros (_ & ?); done|done]|].
  split; [|tauto]. intros _.
  assert (Hstate :
    (bind (kube.DeleteNamespace fuel (handlers.Name req))
       (λ res : outcome (option error),
          match res with
          | Returned (Some e0) =>
              ret (Returned
                     (handlers.mkResponse
                        httpserver.StatusInternalServerError ∅
                        (handlers.Bytes (Error e0))))
          | Returned None =>
              ret (Returned
                     (handlers.mkResponse handlers.StatusOK
                        {[ "Content-Type" := "application/json" ]}
                        (handlers.JSONObject
                           {[ "message" := "Namespace deleted successfully";
                              "name" := handlers.Name req ]})))
          | OutOfFuel => ret OutOfFuel
          end) s).2
    = (kube.DeleteNamespace fuel (handlers.Name req) s).2).
  { unfold bind.
    by destruct (kube.DeleteNamespace fuel (handlers.Name req) s)
      as [[[failure|]|] s']. }
  rewrite Hstate. split; [done|].
  destruct ((Delete context.Background (handlers.Name req) (world s)).1)
    as [failure|] eqn:HD.
  - exists 0%nat. by rewrite (DeleteNamespace_failed _ _ _ failure HD).
  - rewrite DeleteNamespace_poll by done.
    destruct (poll_calls
                (context.WithTimeout context.Background (30 * time.Second)
                   (Now (Delete context.Background (handlers.Name req)
                           (world s)).2))
                (handlers.Name req) fuel
                (mkState (Delete context.Background (handlers.Name req)
                            (world s)).2
                   (calls s ++ [CallDelete context.Background
                                  (handlers.Name req)])))
      as (k & _ & ->).
    exists k. simpl. by rewrite <- app_assoc.
Qed.

Lemma HandleDeleteNamespaceRequest_effects_witness :
  let sc := script None (Some (StatusNotFound "")) get_gone ([], None) in
  let unnamed := handlers.mkRequest "DELETE" ∅
                   (handlers.mkDeleteNamespaceRequest "", None) in
  let post := handlers.mkRequest "POST" ∅
                (handlers.mkDeleteNamespaceRequest "demo", None) in
  (∃ k, calls (@handlers.HandleDeleteNamespaceRequest _ (Sim sc) 61 unnamed
                 (mkState t0 [])).2
        = [] ++ CallDelete context.Background ""
            :: replicate k
                 (CallGet
                    (context.WithTimeout context.Background
                       (30 * time.Second) (t0 + 1000000))
                    ""))
  ∧ (@handlers.HandleDeleteNamespaceRequest _ (Sim sc) 61 post
       (mkState t0 [])).2
    = mkState t0 [].
Proof.
  intros sc unnamed post. split.
  - apply (proj1 (HandleDeleteNamespaceRequest_effects (H := Sim sc) 61
                    unnamed (mkState t0 []))).
    split; reflexivity.
  - apply (proj2 (HandleDeleteNamespaceRequest_effects (H := Sim sc) 61 post
                    (mkState t0 []))).
    intros (HM & _). discriminate HM.
Defined.

Lemma HandleDeleteNamespaceRequest_eq {W} `{World W} fuel r req
    (s : State W) :
  handlers.Method r = handlers.MethodDelete →
  handlers.Decode r = (req, None) →
  handlers.HandleDeleteNamespaceRequest fuel r s
  = (match (kube.DeleteNamespace fuel (handlers.Name req) s).1 with
     | OutOfFuel => OutOfFuel
     | Returned (Some e) =>
         Returned (handlers.mkResponse httpserver.StatusInternalServerError ∅
                     (handlers.Bytes (Error e)))
     | Returned None =>
         Returned (handlers.mkResponse handlers.StatusOK
                     {[ "Content-Type" := "application/json" ]}
                     (handlers.JSONObject
                        {[ "message" := "Namespace deleted successfully";
                           "name" := handlers.Name req ]}))
     end,
     (kube.DeleteNamespace fuel (handlers.Name req) s).2).
Proof.
  intros HM HD. unfold handlers.HandleDeleteNamespaceRequest.
  rewrite HM, HD. simpl. unfold bind.
  by destruct (kube.DeleteNamespace fuel (handlers.Name req) s)
    as [[[failure|]|] s'].
Qed.

(** X16: a DELETE request whose body decodes is always answered, and in
    one of three ways: 200 with a JSON body naming the namespace when
    [DeleteNamespace] returned nil; 500 with the message of the delete
    call's error when that call failed, no poll having been made; 500 with
    the body "context deadline exceeded" after a delete call that
    succeeded, and then not before 30 seconds have passed.  (The clock
    must not run backwards during a [Get] and [time.Sleep] must pause as
    long as asked.) *)
Theorem HandleDeleteNamespaceRequest_outcome {W} `{World W} r req
    (s : State W) :
  Monotone W →
  handlers.Method r = handlers.MethodDelete →
  handlers.Decode r = (req, None) →
  let name := handlers.Name req in
  ∀ fuel, (61 ≤ fuel)%nat →
    ∃ resp s',
      handlers.HandleDeleteNamespaceRequest fuel r s = (Returned resp, s')
      ∧ ((kube.DeleteNamespace fuel name s).1 = Returned None
         ∧ resp = handlers.mkResponse handlers.StatusOK
                    {[ "Content-Type" := "application/json" ]}
                    (handlers.JSONObject
                       {[ "message" := "Namespace deleted successfully";
                          "name" := name ]})
         ∨ (∃ e, (Delete context.Background name (world s)).1 = Some e
                 ∧ resp = handlers.mkResponse
                            httpserver.StatusInternalServerError ∅
                            (handlers.Bytes (Error e))
                 ∧ calls s'
                   = calls s ++ [CallDelete context.Background name])
         ∨ ((Delete context.Background name (world s)).1 = None
            ∧ resp = handlers.mkResponse
                       httpserver.StatusInternalServerError ∅
                       (handlers.Bytes "context deadline exceeded")
            ∧ Now (Delete context.Background name (world s)).2
              + 30 * time.Second ≤ Now (world s'))).
Proof.
  intros Hmono HM HD name fuel Hfuel.
  rewrite (HandleDeleteNamespaceRequest_eq fuel r req s HM HD). fold name.
  destruct (DeleteNamespace_total name s) as (res & s' & _ & Hall).
  specialize (Hall fuel Hfuel). rewrite Hall. simpl.
  destruct res as [e|].
  - eexists _, s'. split; [reflexivity|]. right.
    destruct ((Delete context.Background name (world s)).1) as [e0|] eqn:HDel.
    + left. exists e0. split; [done|].
      rewrite (DeleteNamespace_failed fuel name s e0 HDel) in Hall.
      injection Hall as -> <-. done.
    + right. split; [done|].
      rewrite DeleteNamespace_poll in Hall by done.
      apply poll_error in Hall as [-> Hdone].
      split; [done|].
      unfold context.Done in Hdone. simpl in Hdone.
      by apply Z.leb_le in Hdone.
  - eexists _, s'. split; [reflexivity|]. by left.
Qed.

Lemma HandleDeleteNamespaceRequest_outcome_witness :
  let kept := script None None (get_found (demo t0 2)) ([], None) in
  let r := handlers.mkRequest "DELETE" ∅
             (handlers.mkDeleteNamespaceRequest "demo", None) in
  (61 ≤ 61)%nat
  ∧ ∃ s',
      @handlers.HandleDeleteNamespaceRequest _ (Sim kept) 61 r (mkState t0 [])
      = (Returned (handlers.mkResponse httpserver.StatusInternalServerError ∅
                     (handlers.Bytes "context deadline exceeded")), s')
      ∧ t0 + 1000000 + 30 * time.Second ≤ world s'.
Proof.
  intros kept r. split; [lia|].
  destruct (HandleDeleteNamespaceRequest_outcome (H := Sim kept) r
              (handlers.mkDeleteNamespaceRequest "demo") (mkState t0 [])
              (Sim_Monotone kept) eq_refl eq_refl 61)
    as (resp & s' & Hrun & Hcases); [lia|].
  exists s'.
  destruct Hcases as [(Hnil & _)|[(e & Hsub & _)|(_ & -> & Hlate)]].
  - vm_compute in Hnil. discriminate Hnil.
  - discriminate Hsub.
  - split; [exact Hrun|exact Hlate].
Defined.

(** X17: through the handler, with a client that honours the context: a
    DELETE request for a namespace whose delete call succeeds is answered
    200, "Namespace deleted successfully", whether or not a [Get] ever
    reported the namespace gone. *)
Theorem HandleDeleteNamespaceRequest_honoured_context {W} `{World W} r req
    (s : State W) :
  Monotone W →
  (∀ ctx w, context.Done ctx (Now (Get ctx (handlers.Name req) w).2) = true →
            (Get ctx (handlers.Name req) w).1.2 ≠ None) →
  handlers.Method r = handlers.MethodDelete →
  handlers.Decode r = (req, None) →
  (Delete context.Background (handlers.Name req) (world s)).1 = None →
  ∀ fuel, (61 ≤ fuel)%nat →
    (handlers.HandleDeleteNamespaceRequest fuel r s).1
    = Returned (handlers.mkResponse handlers.StatusOK
                  {[ "Content-Type" := "application/json" ]}
                  (handlers.JSONObject
                     {[ "message" := "Namespace deleted successfully";
                        "name" := handlers.Name req ]})).
Proof.
  intros Hmono Hhon HM HD HDel fuel Hfuel.
  rewrite (HandleDeleteNamespaceRequest_eq fuel r req s HM HD). simpl.
  destruct (DeleteNamespace_total (handlers.Name req) s)
    as (res & s' & _ & Hall).
  specialize (Hall fuel Hfuel). rewrite Hall. simpl.
  rewrite DeleteNamespace_poll in Hall by done.
  by rewrite (poll_honoured_deadline _ _ (Hhon _) _ _ _ _ Hall).
Qed.

Lemma HandleDeleteNamespaceRequest_honoured_context_witness :
  let sc := script None None (get_until_deadline (demo t0 2))
              ([demo t0 2], None) in
  let req := handlers.mkDeleteNamespaceRequest "demo" in
  let r := handlers.mkRequest "DELETE" ∅ (req, None) in
  (∀ ctx w, context.Done ctx (@Now _ (Sim sc) (@Get _ (Sim sc) ctx "demo" w).2)
            = true →
            (@Get _ (Sim sc) ctx "demo" w).1.2 ≠ None)
  ∧ (@handlers.HandleDeleteNamespaceRequest _ (Sim sc) 61 r (mkState t0 [])).1
    = Returned (handlers.mkResponse handlers.StatusOK
                  {[ "Content-Type" := "application/json" ]}
                  (handlers.JSONObject
                     {[ "message" := "Namespace deleted successfully";
                        "name" := "demo" ]})).
Proof.
  intros sc req r.
  assert (Hhon : ∀ ctx w,
            context.Done ctx (@Now _ (Sim sc) (@Get _ (Sim sc) ctx "demo" w).2)
            = true →
            (@Get _ (Sim sc) ctx "demo" w).1.2 ≠ None).
  { intros ctx w Hdone. simpl in *. unfold get_until_deadline.
    rewrite Hdone. discriminate. }
  split; [exact Hhon|].
  apply (HandleDeleteNamespaceRequest_honoured_context (H := Sim sc) r req
           (mkState t0 []) (Sim_Monotone sc) Hhon eq_refl eq_refl eq_refl 61).
  lia.
Defined.

Lemma HandleListNamespacesRequest_eq {W} `{World W} r (s : State W) :
  handlers.Method r = handlers.MethodGet →
  handlers.HandleListNamespacesRequest r s
  = (match (List context.Background (world s)).1 with
     | (_, Some e) =>
         handlers.mkResponse httpserver.StatusInternalServerError ∅
           (handlers.Bytes (Error e))
     | (items, None) =>
         handlers.mkResponse handlers.StatusOK
           {[ "Content-Type" := "application/json" ]}
           (handlers.Encode
              (kube.views (handlers.Values_Get (handlers.Query r) "owner")
                 (Now (List context.Background (world s)).2) items))
     end,
     mkState (List context.Background (world s)).2
       (calls s ++ [CallList context.Background])).
Proof.
  intros HM. unfold handlers.HandleListNamespacesRequest.
  rewrite HM. simpl. unfold bind. rewrite ListNamespaces_eq.
  by destruct (List context.Background (world s)) as [[items [e|]] w'].
Qed.

(** X18: [HandleListNamespacesRequest] answers a request that is not a
    GET with 405 and issues no call; for a GET it issues the one list
    call and answers 500 with the error's message when that call failed,
    and 200 with the encoded views otherwise. *)
Theorem HandleListNamespacesRequest_response {W} `{World W} r
    (s : State W) :
  (handlers.Method r ≠ handlers.MethodGet →
   handlers.HandleListNamespacesRequest r s
   = (handlers.mkResponse httpserver.StatusMethodNotAllowed ∅
        (handlers.Bytes "Method not allowed. Use GET"), s))
  ∧ (handlers.Method r = handlers.MethodGet →
     calls (handlers.HandleListNamespacesRequest r s).2
     = calls s ++ [CallList context.Background]
     ∧ (∀ e, (List context.Background (world s)).1.2 = Some e →
             (handlers.HandleListNamespacesRequest r s).1
             = handlers.mkResponse httpserver.StatusInternalServerError ∅
                 (handlers.Bytes (Error e)))
     ∧ ((List context.Background (world s)).1.2 = None →
        (handlers.HandleListNamespacesRequest r s).1
        = handlers.mkResponse handlers.StatusOK
            {[ "Content-Type" := "application/json" ]}
            (handlers.Encode
               (kube.ListNamespaces
                  (handlers.Values_Get (handlers.Query r) "owner") s).1.1))).
Proof.
  split.
  - intros HM. unfold handlers.HandleListNamespacesRequest.
    by destruct (String.eqb_spec (handlers.Method r) handlers.MethodGet).
  - intros HM. rewrite (HandleListNamespacesRequest_eq r s HM).
    rewrite ListNamespaces_eq. simpl.
    destruct (List context.Background (world s)) as [[items [e0|]] w'];
      simpl; (split; [done|]); split; try done.
    intros e He. by injection He as ->.
Qed.

Lemma HandleListNamespacesRequest_response_witness :
  let sc := script None None get_gone
              ([demo t0 2], Some (TransportError "connection refused")) in
  let get := handlers.mkRequest "GET" ∅
               (handlers.mkDeleteNamespaceRequest "", None) in
  let post := handlers.mkRequest "POST" ∅
                (handlers.mkDeleteNamespaceRequest "", None) in
  @handlers.HandleListNamespacesRequest _ (Sim sc) post (mkState t0 [])
  = (handlers.mkResponse httpserver.StatusMethodNotAllowed ∅
       (handlers.Bytes "Method not allowed. Use GET"), mkState t0 [])
  ∧ (@handlers.HandleListNamespacesRequest _ (Sim sc) get (mkState t0 [])).1
    = handlers.mkResponse httpserver.StatusInternalServerError ∅
        (handlers.Bytes "connection refused").
Proof.
  intros sc get post. split.
  - apply (proj1 (HandleListNamespacesRequest_response (H := Sim sc) post
                    (mkState t0 []))).
    discriminate.
  - apply (proj1 (proj2 (proj2 (HandleListNamespacesRequest_response
                                  (H := Sim sc) get (mkState t0 []))
                          eq_refl))
             (TransportError "connection refused")).
    reflexivity.
Defined.

(** X19: when no record passes the owner filter, and so also when the
    cluster has no namespace, the body of the 200 answer is the JSON
    [null], not an empty array: the slice that [ListNamespaces] returns
    is then nil. *)
Theorem HandleListNamespacesRequest_null {W} `{World W} r (s : State W)
    items w' :
  handlers.Method r = handlers.MethodGet →
  List context.Background (world s) = ((items, None), w') →
  Forall (λ ns, kube.selected
                  (handlers.Values_Get (handlers.Query r) "owner") ns = false)
         items →
  (handlers.HandleListNamespacesRequest r s).1
  = handlers.mkResponse handlers.StatusOK
      {[ "Content-Type" := "application/json" ]} handlers.JSONNull.
Proof.
  intros HM HL Hnone.
  rewrite (HandleListNamespacesRequest_eq r s HM), HL. simpl. clear HL.
  replace (kube.views _ (Now w') items) with (@nil kube.NamespaceInfo);
    [done|].
  unfold kube.views.
  induction Hnone as [|ns items Hns _ IH]; simpl; [done|].
  by rewrite Hns.
Qed.

Lemma HandleListNamespacesRequest_null_witness :
  let sc := script None None get_gone ([bare; demo t0 2], None) in
  let r := handlers.mkRequest "GET" {[ "owner" := ["bob"] ]}
             (handlers.mkDeleteNamespaceRequest "", None) in
  Forall (λ ns, kube.selected
                  (handlers.Values_Get (handlers.Query r) "owner") ns = false)
         [bare; demo t0 2]
  ∧ (@handlers.HandleListNamespacesRequest _ (Sim sc) r (mkState t0 [])).1
    = handlers.mkResponse handlers.StatusOK
        {[ "Content-Type" := "application/json" ]} handlers.JSONNull.
Proof.
  intros sc r.
  assert (Hnone : Forall (λ ns, kube.selected
                    (handlers.Values_Get (handlers.Query r) "owner") ns
                    = false) [bare; demo t0 2])
    by (repeat constructor).
  split; [exact Hnone|].
  apply (HandleListNamespacesRequest_null (H := Sim sc) r (mkState t0 [])
           [bare; demo t0 2] (t0 + 1000000) eq_refl eq_refl Hnone).
Defined.

(** X20: the [owner] parameter is optional and only its first value
    counts.  A GET without it, or with an empty first value, is answered
    with the views of all the records of the reply; a GET with several
    values is answered as [ListNamespaces] of the first one. *)
Theorem HandleListNamespacesRequest_owner {W} `{World W} r (s : State W)
    items w' :
  handlers.Method r = handlers.MethodGet →
  List context.Background (world s) = ((items, None), w') →
  (handlers.Query r !! "owner"%string = None
   ∨ handlers.Query r !! "owner"%string = Some []
   ∨ (∃ more, handlers.Query r !! "owner"%string = Some (""%string :: more)) →
   handlers.Body (handlers.HandleListNamespacesRequest r s).1
   = handlers.Encode (map (kube.view (Now w')) items))
  ∧ (∀ owner more,
       handlers.Query r !! "owner"%string = Some (owner :: more) →
       handlers.Body (handlers.HandleListNamespacesRequest r s).1
       = handlers.Encode (kube.ListNamespaces owner s).1.1).
Proof.
  intros HM HL.
  rewrite (HandleListNamespacesRequest_eq r s HM), HL. simpl.
  unfold handlers.Values_Get. split.
  - intros [->|[->|[more ->]]]; by rewrite views_all.
  - intros owner more ->. by rewrite ListNamespaces_eq, HL.
Qed.

Lemma HandleListNamespacesRequest_owner_witness :
  let sc := script None None get_gone ([bare; demo t0 2; garbled], None) in
  let all := handlers.mkRequest "GET" ∅
               (handlers.mkDeleteNamespaceRequest "", None) in
  let two := handlers.mkRequest "GET" {[ "owner" := ["bob"; "alice"] ]}
               (handlers.mkDeleteNamespaceRequest "", None) in
  let now := t0 + 1000000 in
  handlers.Body
    (@handlers.HandleListNamespacesRequest _ (Sim sc) all (mkState t0 [])).1
  = handlers.Encode
      (map (kube.view now) [bare; demo t0 2; garbled])
  ∧ handlers.Body
      (@handlers.HandleListNamespacesRequest _ (Sim sc) two (mkState t0 [])).1
    = handlers.Encode
        (@kube.ListNamespaces _ (Sim sc) "bob" (mkState t0 [])).1.1.
Proof.
  intros sc all two now. split.
  - apply (proj1 (HandleListNamespacesRequest_owner (H := Sim sc) all
                    (mkState t0 []) [bare; demo t0 2; garbled] now
                    eq_refl eq_refl)).
    left. reflexivity.
  - apply (proj2 (HandleListNamespacesRequest_owner (H := Sim sc) two
                    (mkState t0 []) [bare; demo t0 2; garbled] now
                    eq_refl eq_refl) "bob"%string ["alice"%string]).
    reflexivity.
Defined.

(** ** The remaining TTL over time *)

Lemma Sub_mono t u1 u2 : u1 ≤ u2 → time.Sub t u2 ≤ time.Sub t u1.
Proof.
  intros Hu. unfold time.Sub, maxInt64, minInt64.
  change (2 ^ 63) with 9223372036854775808.
  destruct (Z.ltb_spec (9223372036854775808 - 1) (t - u2));
    destruct (Z.ltb_spec (9223372036854775808 - 1) (t - u1));
    destruct (Z.ltb_spec (t - u2) (- (9223372036854775808)));
    destruct (Z.ltb_spec (t - u1) (- (9223372036854775808))); lia.
Qed.

Lemma expiry_mono now1 now2 str :
  now1 ≤ now2 →
  (kube.expiry now2 str).1 = (kube.expiry now1 str).1
  ∧ (kube.expiry now2 str).2 ≤ (kube.expiry now1 str).2.
Proof.
  intros Hnow. unfold kube.expiry.
  destruct (String.eqb str ""); [done|].
  destruct (time.Parse_RFC3339 str) as [expiresAt [e|]]; simpl; [done|].
  split; [done|].
  pose proof (Sub_mono expiresAt now1 now2 Hnow) as Hsub.
  destruct (Z.ltb_spec 0 (time.Sub expiresAt now2)) as [Hpos2|Hneg2];
    destruct (Z.ltb_spec 0 (time.Sub expiresAt now1)) as [Hpos1|Hneg1];
    try lia.
  - by apply Hours_int_mono.
  - pose proof (Sub_range expiresAt now1) as Hr.
    destruct (Hours_int_bounds (time.Sub expiresAt now1)) as ([Hlo _] & _);
      [lia|].
    etrans; [|exact Hlo]. apply Z.div_pos; [lia|done].
Qed.

(** X21: time only takes from the TTL.  Two listings with the same
    filter of the same reply, the second with the clock not before that of
    the first, show the same namespaces in the same order with the same
    [ExpiresAt], and no TTL larger in the second than in the first. *)
Theorem ListNamespaces_ttl_decreases {W} `{World W} owner
    (s1 s2 : State W) items w1 w2 :
  List context.Background (world s1) = ((items, None), w1) →
  List context.Background (world s2) = ((items, None), w2) →
  Now w1 ≤ Now w2 →
  Forall2 (λ v1 v2, kube.Name v2 = kube.Name v1
                    ∧ kube.ExpiresAt v2 = kube.ExpiresAt v1
                    ∧ kube.TTL v2 ≤ kube.TTL v1)
    (kube.ListNamespaces owner s1).1.1 (kube.ListNamespaces owner s2).1.1.
Proof.
  intros HL1 HL2 Hnow. rewrite !ListNamespaces_eq, HL1, HL2. simpl.
  unfold kube.views.
  induction (List.filter (kube.selected owner) items) as [|ns l IH]; simpl;
    constructor; [|done].
  split; [done|]. simpl. by apply expiry_mono.
Qed.

Lemma ListNamespaces_ttl_decreases_witness :
  let sc := script None None get_gone ([bare; demo t0 2], None) in
  let later := t0 + time.Hour in
  (@List _ (Sim sc) context.Background t0
   = (([bare; demo t0 2], None), t0 + 1000000)
   ∧ @List _ (Sim sc) context.Background later
     = (([bare; demo t0 2], None), later + 1000000)
   ∧ t0 + 1000000 ≤ later + 1000000)
  ∧ Forall2 (λ v1 v2, kube.Name v2 = kube.Name v1
                      ∧ kube.ExpiresAt v2 = kube.ExpiresAt v1
                      ∧ kube.TTL v2 ≤ kube.TTL v1)
      (@kube.ListNamespaces _ (Sim sc) "" (mkState t0 [])).1.1
      (@kube.ListNamespaces _ (Sim sc) "" (mkState later [])).1.1.
Proof.
  intros sc later.
  assert (Hle : t0 + 1000000 ≤ later + 1000000)
    by (vm_compute; discriminate).
  split; [split; [reflexivity|split; [reflexivity|exact Hle]]|].
  exact (ListNamespaces_ttl_decreases (H := Sim sc) "" (mkState t0 [])
           (mkState later []) [bare; demo t0 2] (t0 + 1000000)
           (later + 1000000) eq_refl eq_refl Hle).
Defined.

(** X22: what a TTL means.  For a record whose [expires_at] is an
    instant after the clock, and no more than a [Duration] can hold after
    it, the TTL is the number of hours left: one more hour than the TTL
    never remains, and the hours of the TTL remain but for a microsecond
    at most.  With 4096 hours left or less the hours of the TTL remain in
    full.  (Above that the conversion of the duration through [float64]
    can round what is within a microsecond of a whole hour up to it.) *)
Theorem ListNamespaces_ttl_hours {W} `{World W} owner (s : State W)
    l1 ns l2 w' expiresAt :
  time.Parse_RFC3339 (index (corev1.Annotations ns) "expires_at")
  = (expiresAt, None) →
  0 < expiresAt - Now w' ≤ maxInt64 →
  owner = ""%string ∨ index (corev1.Annotations ns) "owner" = owner →
  List context.Background (world s) = ((l1 ++ ns :: l2, None), w') →
  ∃ v, (kube.ListNamespaces owner s).1
       = (kube.views owner (Now w') l1 ++ v :: kube.views owner (Now w') l2,
          None)
       ∧ kube.Name v = corev1.Name ns
       ∧ kube.TTL v * time.Hour - time.Microsecond < expiresAt - Now w'
         < (kube.TTL v + 1) * time.Hour
       ∧ (expiresAt - Now w' ≤ 4096 * time.Hour →
          kube.TTL v * time.Hour ≤ expiresAt - Now w').
Proof.
  intros HP Hrem Hsel HL.
  exists (kube.view (Now w') ns).
  rewrite ListNamespaces_eq, HL. simpl.
  rewrite views_app, views_cons.
  assert (kube.selected owner ns = true) as ->.
  { unfold kube.selected. destruct Hsel as [->| ->]; [done|].
    rewrite String.eqb_refl. apply orb_true_r. }
  split; [done|]. split; [done|].
  unfold kube.expiry. rewrite HP.
  destruct (String.eqb_spec (index (corev1.Annotations ns) "expires_at") "")
    as [Hempty|_].
  { rewrite Hempty, Parse_empty in HP. discriminate. }
  simpl.
  rewrite Sub_exact by (unfold minInt64, maxInt64 in *; lia).
  destruct (Z.ltb_spec 0 (expiresAt - Now w')) as [_|?]; [|lia].
  destruct (Hours_int_bounds (expiresAt - Now w') Hrem)
    as ([Hlo Hhi] & _ & Hnear & Hexact).
  change time.Hour with 3600000000000 in *.
  change time.Microsecond with 1000 in *.
  split; [split|].
  - lia.
  - Z.div_mod_to_equations. lia.
  - intros Hsmall. rewrite Hexact by done. Z.div_mod_to_equations. lia.
Qed.

Lemma ListNamespaces_ttl_hours_witness :
  let sc := script None None get_gone ([bare; demo t0 2], None) in
  let expiresAt := time.Date 2024 1 15 12 0 0 0 in
  (time.Parse_RFC3339 (index (corev1.Annotations (demo t0 2)) "expires_at")
   = (expiresAt, None)
   ∧ 0 < expiresAt - (t0 + 1000000) ≤ maxInt64)
  ∧ ∃ v, (@kube.ListNamespaces _ (Sim sc) "alice" (mkState t0 [])).1
         = ([] ++ v :: [], None)
         ∧ kube.Name v = "demo"%string
         ∧ kube.TTL v * time.Hour - time.Microsecond
           < expiresAt - (t0 + 1000000) < (kube.TTL v + 1) * time.Hour
         ∧ (expiresAt - (t0 + 1000000) ≤ 4096 * time.Hour →
            kube.TTL v * time.Hour ≤ expiresAt - (t0 + 1000000)).
Proof.
  intros sc expiresAt.
  assert (HP : time.Parse_RFC3339
                 (index (corev1.Annotations (demo t0 2)) "expires_at")
               = (expiresAt, None)) by (vm_compute; reflexivity).
  assert (Hrem : 0 < expiresAt - (t0 + 1000000) ≤ maxInt64)
    by (vm_compute; split; [reflexivity|discriminate]).
  split; [by split|].
  apply (ListNamespaces_ttl_hours (H := Sim sc) "alice" (mkState t0 [])
           [bare] (demo t0 2) [] (t0 + 1000000) expiresAt HP Hrem).
  - right. reflexivity.
  - reflexivity.
Defined.
